(** * add_playlist_to_mstream: a shallow embedding of the uploader script

    The development follows [add_playlist_to_mstream.py] top to bottom:
    Python strings, [pathlib] paths over a file-system tree, [Settings],
    [parse_m3u], [gather_m3u_files], [api_request], [login] and [main].

    Modelling conventions.
    - A Python [str] is a list of Unicode code points ([N]).
    - A path is the list of its components below the root; the paths handed
      to the functions are absolute and normalised ([main] resolves the
      command-line path first).
    - The file system comes twice.  First as a plain tree: no symbolic
      links, so [Path.resolve] maps a path to itself, and nothing refused.
      Then, in [Posix], as a tree with symbolic links on which [stat],
      [scandir] and [open] may be refused, with the command line as
      [argparse] leaves it; the plain tree is the special case
      ([posix_main_plain]).
    - An HTTP request is a call of [session.request]: its arguments and the
      headers of the session.  What the HTTP client then puts on the wire,
      redirects included, is not modelled.
    - A file's content is its text after decoding (UTF-8, undecodable bytes
      dropped), before newline translation.
    - Effects are explicit: every function that touches the file system or
      the network returns the events it performed, in program order.
    - Log output is not modelled. *)

From Stdlib Require Import List ZArith NArith Bool Lia String Ascii.
From Stdlib Require Import Sorting.Sorted Sorting.Permutation Sorting.Mergesort Orders.
Import ListNotations.

Set Implicit Arguments.

(* ------------------------------------------------------------------ *)
(** ** Python strings *)

Definition char := N.
Definition str := list char.

(** An ASCII literal as a Python string. *)
Definition py (s : string) : str := map N_of_ascii (list_ascii_of_string s).

Definition char_LF : char := 10%N.
Definition char_CR : char := 13%N.
Definition char_hash : char := 35%N.
Definition char_star : char := 42%N.
Definition char_dot : char := 46%N.

Fixpoint str_eqb (a b : str) : bool :=
  match a, b with
  | [], [] => true
  | x :: a', y :: b' => N.eqb x y && str_eqb a' b'
  | _, _ => false
  end.

(** [str.isspace] on one code point: the characters [str.strip()] removes. *)
Definition isspace (c : char) : bool :=
  (((9 <=? c) && (c <=? 13)) || ((28 <=? c) && (c <=? 32))
   || (c =? 133) || (c =? 160) || (c =? 5760)
   || ((8192 <=? c) && (c <=? 8202))
   || (c =? 8232) || (c =? 8233) || (c =? 8239) || (c =? 8287)
   || (c =? 12288))%N.

Fixpoint dropwhile (f : char -> bool) (s : str) : str :=
  match s with
  | [] => []
  | c :: s' => if f c then dropwhile f s' else s
  end.

Definition lstrip_where (f : char -> bool) (s : str) : str := dropwhile f s.
Definition rstrip_where (f : char -> bool) (s : str) : str :=
  rev (dropwhile f (rev s)).

(** [s.strip()] *)
Definition strip (s : str) : str := rstrip_where isspace (lstrip_where isspace s).

Definition char_in (chars : str) (c : char) : bool := existsb (N.eqb c) chars.

(** [s.rstrip(chars)] and [s.lstrip(chars)] *)
Definition rstrip (chars s : str) : str := rstrip_where (char_in chars) s.
Definition lstrip (chars s : str) : str := lstrip_where (char_in chars) s.

(** [s.startswith(prefix)] *)
Fixpoint startswith (prefix s : str) : bool :=
  match prefix, s with
  | [], _ => true
  | p :: prefix', c :: s' => N.eqb p c && startswith prefix' s'
  | _ :: _, [] => false
  end.

(** [s.lower()].  Only the ASCII letters are mapped.  No other code point
    lower-cases to one of [.], [m], [3], [u], so the comparison of the result
    with [".m3u"], its one use, comes out as in Python. *)
Definition lower_char (c : char) : char :=
  if ((65 <=? c) && (c <=? 90))%N then (c + 32)%N else c.
Definition lower (s : str) : str := map lower_char s.

(** [s.rfind(c)] for a one-character needle: last index, or -1. *)
Fixpoint rfind_from (c : char) (s : str) (i : Z) : Z :=
  match s with
  | [] => (-1)%Z
  | d :: s' =>
      let r := rfind_from c s' (i + 1)%Z in
      if (0 <=? r)%Z then r else if N.eqb d c then i else (-1)%Z
  end.
Definition rfind (c : char) (s : str) : Z := rfind_from c s 0%Z.

Definition len (s : str) : Z := Z.of_nat (List.length s).
(** The slices [s[i:]] and [s[:i]] for [0 <= i]. *)
Definition slice_from (s : str) (i : Z) : str := skipn (Z.to_nat i) s.
Definition slice_to (s : str) (i : Z) : str := firstn (Z.to_nat i) s.

(** Iterating over a text file opened with the default [newline=None]:
    the file is cut after every ["\n"], ["\r\n"] and lone ["\r"], each
    translated to ["\n"] and kept at the end of its line; characters after
    the last terminator form a final line without one. *)
Fixpoint iter_lines (cur : str) (text : str) : list str :=
  match text with
  | [] => match cur with [] => [] | _ => [rev cur] end
  | c :: rest =>
      if N.eqb c char_LF then rev (char_LF :: cur) :: iter_lines [] rest
      else if N.eqb c char_CR then
        match rest with
        | d :: rest' =>
            if N.eqb d char_LF then rev (char_LF :: cur) :: iter_lines [] rest'
            else rev (char_LF :: cur) :: iter_lines [] rest
        | [] => rev (char_LF :: cur) :: iter_lines [] rest
        end
      else iter_lines (c :: cur) rest
  end.
Definition file_lines (text : str) : list str := iter_lines [] text.

(** [fnmatch] for patterns made of literal characters and [*]. *)
Fixpoint fnmatch (pat : str) (name : str) {struct pat} : bool :=
  match pat with
  | [] => match name with [] => true | _ :: _ => false end
  | c :: pat' =>
      if N.eqb c char_star then
        (fix anywhere (n : str) : bool :=
           fnmatch pat' n
           || match n with [] => false | _ :: n' => anywhere n' end) name
      else
        match name with
        | [] => false
        | d :: name' => N.eqb c d && fnmatch pat' name'
        end
  end.

(* ------------------------------------------------------------------ *)
(** ** pathlib over a file-system tree *)

Definition Path := list str.

#[warnings="-register-all"]
Inductive Node : Type :=
| RegularFile (content : str)
| Directory (entries : list (str * Node))
| Special.   (* socket, FIFO, device: exists, neither file nor directory *)

Definition FS := Node.   (* the node at the root *)

Fixpoint assoc (k : str) (es : list (str * Node)) : option Node :=
  match es with
  | [] => None
  | (k', n) :: es' => if str_eqb k k' then Some n else assoc k es'
  end.

Fixpoint lookup (n : Node) (p : Path) : option Node :=
  match p with
  | [] => Some n
  | c :: p' =>
      match n with
      | Directory es =>
          match assoc c es with
          | Some n' => lookup n' p'
          | None => None
          end
      | _ => None
      end
  end.

Definition is_file (fs : FS) (p : Path) : bool :=
  match lookup fs p with Some (RegularFile _) => true | _ => false end.
Definition is_dir (fs : FS) (p : Path) : bool :=
  match lookup fs p with Some (Directory _) => true | _ => false end.
Definition read_text (fs : FS) (p : Path) : option str :=
  match lookup fs p with Some (RegularFile t) => Some t | _ => None end.

(** [p / name] *)
Definition joinpath (p : Path) (child : str) : Path := p ++ [child].
(** [p.name]: the last component, empty for the root. *)
Definition name (p : Path) : str := last p [].

(** [p.suffix] and [p.stem] (CPython 3.8 to 3.13). *)
Definition has_suffix (nm : str) : bool :=
  let i := rfind char_dot nm in
  ((0 <? i) && (i <? len nm - 1))%Z.
Definition suffix (p : Path) : str :=
  let nm := name p in
  if has_suffix nm then slice_from nm (rfind char_dot nm) else [].
Definition stem (p : Path) : str :=
  let nm := name p in
  if has_suffix nm then slice_to nm (rfind char_dot nm) else nm.

(** [p.resolve()] for an absolute, normalised path of a tree without links. *)
Definition resolve (p : Path) : Path := p.

(** The names in a directory, in the order the operating system lists them. *)
Definition scandir (fs : FS) (p : Path) : list str :=
  match lookup fs p with
  | Some (Directory es) => map fst es
  | _ => []
  end.
(** [p.glob(pattern)] for a pattern without a path separator. *)
Definition glob (fs : FS) (p : Path) (pattern : str) : list Path :=
  map (joinpath p) (filter (fnmatch pattern) (scandir fs p)).

(** Paths compare as the lists of their components, strings by code point. *)
Fixpoint str_compare (a b : str) : comparison :=
  match a, b with
  | [], [] => Eq
  | [], _ :: _ => Lt
  | _ :: _, [] => Gt
  | x :: a', y :: b' =>
      match (x ?= y)%N with Eq => str_compare a' b' | o => o end
  end.
Fixpoint path_leb (p q : Path) : bool :=
  match p, q with
  | [], _ => true
  | _ :: _, [] => false
  | x :: p', y :: q' =>
      match str_compare x y with
      | Lt => true
      | Gt => false
      | Eq => path_leb p' q'
      end
  end.

(** Totality of the path order, as the sort needs it. *)
Lemma str_compare_antisym (a b : str) :
  str_compare b a = CompOpp (str_compare a b).
Proof.
  revert b; induction a as [|x a IH]; intros [|y b]; simpl; try reflexivity.
  rewrite (N.compare_antisym x y).
  destruct (x ?= y)%N; simpl; auto.
Qed.

Module PathOrder <: TotalLeBool.
Definition t := Path.
Definition leb := path_leb.
Theorem leb_total : forall p q, path_leb p q = true \/ path_leb q p = true.
Proof.
  induction p as [|x p IH]; intros [|y q]; simpl; auto.
  rewrite (str_compare_antisym x y).
  destruct (str_compare x y); simpl; auto.
Qed.
End PathOrder.

Module PathSort := Sort PathOrder.

(** [sorted(paths)] *)
Definition sorted (l : list Path) : list Path := PathSort.sort l.

(* ------------------------------------------------------------------ *)
(** ** Exceptions, requests and events *)

Inductive exn : Type :=
| RuntimeError (missing : list str)   (* Settings.validate *)
| FileNotFoundError (p : Path)        (* parse_m3u *)
| ValueError (p : Path)               (* gather_m3u_files: not a .m3u file *)
| NotADirectoryError (p : Path)       (* gather_m3u_files: no such path *)
| HTTPError (status : Z)              (* Response.raise_for_status *)
| ConnectionError                     (* Session.request: no response at all *)
| JSONDecodeError                     (* Response.json *)
| AttributeError                      (* [.get] on a JSON value that is no object *)
| OSError (p : Path).                 (* [stat] or [open] refused: permission, name too long *)

Inductive result (A : Type) : Type :=
| Ok (a : A)
| Raise (e : exn).
Arguments Ok {A} a.
Arguments Raise {A} e.

(** The JSON request bodies of the script: objects of strings and string lists. *)
Inductive jvalue : Type :=
| JString (s : str)
| JArray (items : list str).
Definition Payload := list (str * jvalue).

Record Request : Type := {
  req_method : str;
  req_url : str;
  req_headers : list (str * str);
  req_timeout : Z;
  req_json : Payload
}.

(** What [Response.json()] finds in a response body. *)
Inductive Body : Type :=
| NotJson                           (* [json()] raises *)
| JsonObject (token : option str)   (* an object; its ["token"] member if any *)
| JsonOther.                        (* a JSON value without [.get] *)

Record Response : Type := {
  status_code : Z;
  body : Body
}.

Inductive Reply : Type :=
| Responded (r : Response)
| NoResponse.                       (* connection error or timeout *)

(** The server and the network: the reply to a request, given the requests
    sent before it (oldest first).  A request here is one call of
    [session.request] with its arguments, a reply what that call returns
    or raises; the redirects the HTTP client follows on its own and the
    bytes it puts on the wire are not part of the model. *)
Definition Server := list Request -> Request -> Reply.

(** What the script does to the outside world: calls of [pathlib] and
    calls of [session.request]. *)
Inductive event : Type :=
| FsIsFile (p : Path)
| FsIsDir (p : Path)
| FsGlob (p : Path) (pattern : str)
| FsOpen (p : Path)
| Http (r : Request).

Fixpoint http_calls (tr : list event) : list Request :=
  match tr with
  | [] => []
  | Http r :: tr' => r :: http_calls tr'
  | _ :: tr' => http_calls tr'
  end.

Definition is_fs_event (e : event) : bool :=
  match e with Http _ => false | _ => true end.

(* ------------------------------------------------------------------ *)
(** ** Settings *)

Definition Environ := str -> option str.

(** [os.getenv(key, default)] *)
Definition getenv (env : Environ) (key default : str) : str :=
  match env key with Some v => v | None => default end.

Record Settings : Type := {
  BASE_URL : str;
  USERNAME : str;
  PASSWORD : str
}.

(** The class body of [Settings], evaluated once at import. *)
Definition load_settings (env : Environ) : Settings :=
  {| BASE_URL := rstrip (py "/") (getenv env (py "MS_BASE_URL") (py "http://127.0.0.1:3000"));
     USERNAME := getenv env (py "MS_USERNAME") (py "admin");
     PASSWORD := getenv env (py "MS_PASSWORD") (py "admin") |}.

Definition _REQUIRED_KEYS : list str := [py "BASE_URL"; py "USERNAME"; py "PASSWORD"].

(** [getattr(cls, name, None)] *)
Definition getattr (cls : Settings) (attr : str) : option str :=
  if str_eqb attr (py "BASE_URL") then Some (BASE_URL cls)
  else if str_eqb attr (py "USERNAME") then Some (USERNAME cls)
  else if str_eqb attr (py "PASSWORD") then Some (PASSWORD cls)
  else None.

(** Truth value of a string or [None]. *)
Definition truthy (v : option str) : bool :=
  match v with Some (_ :: _) => true | _ => false end.

Definition validate (cls : Settings) : result unit :=
  let missing := filter (fun attr => negb (truthy (getattr cls attr))) _REQUIRED_KEYS in
  match missing with
  | [] => Ok tt
  | _ :: _ => Raise (RuntimeError missing)
  end.

(* ------------------------------------------------------------------ *)
(** ** Helper / core functions *)

(** One turn of the loop of [parse_m3u]. *)
Definition parse_line (songs : list str) (raw_line : str) : list str :=
  let line := strip raw_line in
  if truthy (Some line) && negb (startswith (py "#") line)
  then songs ++ [line]
  else songs.

Definition parse_m3u (fs : FS) (file_path : Path) : list event * result (list str) :=
  if negb (is_file fs file_path) then
    ([FsIsFile file_path], Raise (FileNotFoundError file_path))
  else
    match read_text fs file_path with
    | Some text =>
        ([FsIsFile file_path; FsOpen file_path],
         Ok (fold_left parse_line (file_lines text) []))
    | None =>
        ([FsIsFile file_path; FsOpen file_path], Raise (FileNotFoundError file_path))
    end.

Definition gather_m3u_files (fs : FS) (root : Path) : list event * result (list Path) :=
  if is_file fs root then
    if negb (str_eqb (lower (suffix root)) (py ".m3u")) then
      ([FsIsFile root], Raise (ValueError root))
    else ([FsIsFile root], Ok [resolve root])
  else if negb (is_dir fs root) then
    ([FsIsFile root; FsIsDir root], Raise (NotADirectoryError root))
  else
    (* non-recursive glob *)
    let found := glob fs root (py "*.m3u") in
    ([FsIsFile root; FsIsDir root; FsGlob root (py "*.m3u")] ++ map FsIsFile found,
     Ok (sorted (map resolve (filter (is_file fs) found)))).

(* ------------------------------------------------------------------ *)
(** ** The API client *)

(** [requests.Session]: the headers sent with every request. *)
Record Session : Type := {
  headers : list (str * str)
}.

(** [d.update({k: v})] on one key: replace in place, or append. *)
Fixpoint dict_set (d : list (str * str)) (k v : str) : list (str * str) :=
  match d with
  | [] => [(k, v)]
  | (k', v') :: d' => if str_eqb k k' then (k, v) :: d' else (k', v') :: dict_set d' k v
  end.

(** [session.headers.update(new)] *)
Definition headers_update (session : Session) (new : list (str * str)) : Session :=
  {| headers := fold_left (fun d kv => dict_set d (fst kv) (snd kv)) new (headers session) |}.

Section Client.

(** The two facts taken from the [requests] library: for which status codes
    [Response.raise_for_status()] raises [HTTPError], and the headers a new
    [Session] starts with. *)
Variable raises_for_status : Z -> bool.
Variable default_headers : list (str * str).

Variable cfg : Settings.
Variable server : Server.

(** [f"{Settings.BASE_URL}/{endpoint.lstrip('/')}"] *)
Definition request_url (endpoint : str) : str :=
  BASE_URL cfg ++ py "/" ++ lstrip (py "/") endpoint.

(** The call [session.request(method=method, url=url, timeout=30, json=payload)]:
    its arguments, and the headers the session holds when it is made. *)
Definition prepare (session : Session) (method endpoint : str) (payload : Payload) : Request :=
  {| req_method := method; req_url := request_url endpoint;
     req_headers := headers session; req_timeout := 30%Z;
     req_json := payload |}.

(** [api_request(session, method, endpoint, json=payload)], [sent] being the
    calls made before this one. *)
Definition api_request (sent : list Request) (session : Session)
    (method endpoint : str) (payload : Payload) : list event * result Response :=
  let req := prepare session method endpoint payload in
  match server sent req with
  | NoResponse => ([Http req], Raise ConnectionError)
  | Responded resp =>
      if raises_for_status (status_code resp)
      then ([Http req], Raise (HTTPError (status_code resp)))
      else ([Http req], Ok resp)
  end.

(** [login(session)]; the session comes back with the token header set when
    the reply carried a token. *)
Definition login (sent : list Request) (session : Session) : list event * result Session :=
  let payload := [(py "username", JString (USERNAME cfg));
                  (py "password", JString (PASSWORD cfg))] in
  let '(evs, r) := api_request sent session (py "POST") (py "/api/v1/auth/login") payload in
  match r with
  | Raise e => (evs, Raise e)
  | Ok resp =>
      match body resp with
      | NotJson => (evs, Raise JSONDecodeError)
      | JsonOther => (evs, Raise AttributeError)
      | JsonObject csrf =>
          if truthy csrf
          then (evs, Ok (headers_update session
                           [(py "X-CSRF-Token", match csrf with Some t => t | None => [] end)]))
          else (evs, Ok session)
      end
  end.

(* ------------------------------------------------------------------ *)
(** ** main *)

(** The file system may change while the script runs: [fs_upload i] is the
    tree the [i]-th turn of the upload loop sees. *)
Variable fs_discovery : FS.
Variable fs_upload : nat -> FS.

(** The body of the [try] in the upload loop, for the [i]-th file. *)
Definition upload_one (session : Session) (i : nat) (sent : list Request)
    (m3u_path : Path) : list event * result unit :=
  let '(ev1, r1) := parse_m3u (fs_upload i) m3u_path in
  match r1 with
  | Raise e => (ev1, Raise e)
  | Ok songs =>
      let playlist_name := stem m3u_path in
      let payload := [(py "title", JString playlist_name); (py "songs", JArray songs)] in
      let '(ev2, r2) :=
        api_request sent session (py "POST") (py "/api/v1/playlist/save") payload in
      match r2 with
      | Raise e => (ev1 ++ ev2, Raise e)
      | Ok _ => (ev1 ++ ev2, Ok tt)
      end
  end.

(** [for m3u_path in m3u_files: try: ... except Exception: log.error(...)] *)
Fixpoint upload_loop (session : Session) (i : nat) (sent : list Request)
    (m3u_files : list Path) : list event :=
  match m3u_files with
  | [] => []
  | m3u_path :: rest =>
      let '(evs, r) := upload_one session i sent m3u_path in
      match r with
      | Ok _ => evs ++ upload_loop session (S i) (sent ++ http_calls evs) rest
      | Raise _ => evs ++ upload_loop session (S i) (sent ++ http_calls evs) rest
      end
  end.

(** The session [main] opens: a new [requests.Session] after
    [session.headers.update({"Accept": ..., "Content-Type": ...})]. *)
Definition main_session : Session :=
  headers_update {| headers := default_headers |}
    [(py "Accept", py "application/json");
     (py "Content-Type", py "application/json")].

(** How the process ends: [sys.exit(main())], or an exception nobody caught. *)
Inductive outcome : Type :=
| Exit (code : Z)
| Uncaught (e : exn).

(** [main()], with [target] the resolved command-line path. *)
Definition main (target : Path) : list event * outcome :=
  (* Validate config *)
  match validate cfg with
  | Raise (RuntimeError _) => ([], Exit 1)
  | Raise e => ([], Uncaught e)
  | Ok _ =>
      (* Resolve playlist files *)
      let '(ev1, found) := gather_m3u_files fs_discovery target in
      match found with
      | Raise (FileNotFoundError _) | Raise (ValueError _) | Raise (NotADirectoryError _) =>
          (ev1, Exit 1)
      | Raise e => (ev1, Uncaught e)
      | Ok [] => (ev1, Exit 1)
      | Ok m3u_files =>
          (* HTTP session + login *)
          let session := main_session in
          let '(ev2, logged_in) := login [] session in
          match logged_in with
          | Raise _ => (ev1 ++ ev2, Exit 1)
          | Ok session' =>
              (* Upload each playlist *)
              (ev1 ++ ev2 ++ upload_loop session' 0 (http_calls ev2) m3u_files, Exit 0)
          end
      end
  end.

(** The two requests of the wire protocol, as [login] and the upload loop
    hand them to [api_request]. *)
Definition login_request (session : Session) : Request :=
  prepare session (py "POST") (py "/api/v1/auth/login")
    [(py "username", JString (USERNAME cfg)); (py "password", JString (PASSWORD cfg))].
Definition save_request (session : Session) (title : str) (songs : list str) : Request :=
  prepare session (py "POST") (py "/api/v1/playlist/save")
    [(py "title", JString title); (py "songs", JArray songs)].

(** The uploads a run owes its files: one playlist-save request for every
    file that parses when its turn comes, [i] counting the turns. *)
Fixpoint uploads_due (session : Session) (i : nat) (m3u_files : list Path) : list Request :=
  match m3u_files with
  | [] => []
  | m3u_path :: rest =>
      match snd (parse_m3u (fs_upload i) m3u_path) with
      | Ok songs => save_request session (stem m3u_path) songs :: uploads_due session (S i) rest
      | Raise _ => uploads_due session (S i) rest
      end
  end.

(** The turns a run owes its files: each file in order is probed and read,
    and submitted if it parsed; nothing here depends on what the server
    replied or on how an earlier file fared. *)
Fixpoint attempts (session : Session) (i : nat) (m3u_files : list Path) : list event :=
  match m3u_files with
  | [] => []
  | m3u_path :: rest =>
      fst (parse_m3u (fs_upload i) m3u_path)
      ++ match snd (parse_m3u (fs_upload i) m3u_path) with
         | Ok songs => [Http (save_request session (stem m3u_path) songs)]
         | Raise _ => []
         end
      ++ attempts session (S i) rest
  end.

End Client.


(* ------------------------------------------------------------------ *)
(** ** The script on a file system with links and refusals

    The definitions above run the script on a plain tree: every entry is
    what it looks like and nothing is refused.  [Posix] runs the same
    statements on a tree with symbolic links, where [stat], [scandir] and
    [open] may be refused by the operating system.  [plain_fs] embeds a
    plain tree, and on such a tree the two agree (see [posix_main_plain]). *)

Module Posix.

#[warnings="-register-all"]
Inductive Node : Type :=
| File (content : str)
| Dir (entries : list (str * Node))
| Link (target : Path)   (* a symbolic link, with the absolute path it names *)
| Other.

(** The tree, and what the operating system refuses: [stat_error p] when
    [os.stat(p)] fails with an error that [pathlib] passes on (no search
    permission on a directory of [p], a name that is too long),
    [scandir_denied p] when listing [p] is not permitted, [open_error p]
    when [open(p)] fails although [p] is a regular file. *)
Record FS : Type := {
  tree : Node;
  stat_error : Path -> bool;
  scandir_denied : Path -> bool;
  open_error : Path -> bool
}.

Fixpoint entry (k : str) (es : list (str * Node)) : option Node :=
  match es with
  | [] => None
  | (k', n) :: es' => if str_eqb k k' then Some n else entry k es'
  end.

(** Walking down from [node], which sits at [done], along [rest]; a link on
    the way sends the walk to [jump]. *)
Fixpoint go (jump : Path -> option (Path * Node)) (node : Node) (done rest : Path)
    {struct rest} : option (Path * Node) :=
  match rest with
  | [] => Some (done, node)
  | c :: rest' =>
      match node with
      | Dir es =>
          match entry c es with
          | None => None
          | Some (Link t) => jump (t ++ rest')
          | Some child => go jump child (done ++ [c]) rest'
          end
      | _ => None
      end
  end.

(** Path resolution as [stat] does it: the real path and the node [p]
    names, following every link, at most [fuel - 1] of them. *)
Fixpoint walk (fuel : nat) (top : Node) (p : Path) {struct fuel} : option (Path * Node) :=
  match fuel with
  | O => None
  | S fuel' => go (walk fuel' top) top [] p
  end.

(** The kernel follows at most 40 links in one resolution. *)
Definition MAXSYMLINKS : nat := 40.

Definition locate (fs : FS) (p : Path) : option (Path * Node) :=
  walk (S MAXSYMLINKS) (tree fs) p.

(** [p.is_file()] and [p.is_dir()] (CPython 3.8 to 3.13): [False] for what
    does not exist, dangling links and loops of links included, and the
    [OSError] of [stat] when [stat] is refused. *)
Definition is_file (fs : FS) (p : Path) : result bool :=
  if stat_error fs p then Raise (OSError p)
  else Ok (match locate fs p with Some (_, File _) => true | _ => false end).
Definition is_dir (fs : FS) (p : Path) : result bool :=
  if stat_error fs p then Raise (OSError p)
  else Ok (match locate fs p with Some (_, Dir _) => true | _ => false end).

(** [p.resolve()] for a path [stat] finds; the script resolves no other. *)
Definition resolve (fs : FS) (p : Path) : Path :=
  match locate fs p with Some (q, _) => q | None => p end.

(** The names [os.scandir(p)] lists; [glob] takes a refused listing for an
    empty one. *)
Definition scandir (fs : FS) (p : Path) : list str :=
  if scandir_denied fs p then []
  else match locate fs p with
       | Some (_, Dir es) => map fst es
       | _ => []
       end.
Definition glob (fs : FS) (p : Path) (pattern : str) : list Path :=
  map (joinpath p) (filter (fnmatch pattern) (scandir fs p)).

(** [open(p).read()] *)
Definition read_text (fs : FS) (p : Path) : result str :=
  if open_error fs p then Raise (OSError p)
  else match locate fs p with
       | Some (_, File text) => Ok text
       | _ => Raise (FileNotFoundError p)
       end.

Definition parse_m3u (fs : FS) (file_path : Path) : list event * result (list str) :=
  match is_file fs file_path with
  | Raise e => ([FsIsFile file_path], Raise e)
  | Ok false => ([FsIsFile file_path], Raise (FileNotFoundError file_path))
  | Ok true =>
      match read_text fs file_path with
      | Ok text =>
          ([FsIsFile file_path; FsOpen file_path],
           Ok (fold_left parse_line (file_lines text) []))
      | Raise e => ([FsIsFile file_path; FsOpen file_path], Raise e)
      end
  end.

(** [(p.resolve() for p in found if p.is_file())], run to its end or to the
    first [is_file()] that raises. *)
Fixpoint select_files (fs : FS) (found : list Path) : list event * result (list Path) :=
  match found with
  | [] => ([], Ok [])
  | p :: rest =>
      match is_file fs p with
      | Raise e => ([FsIsFile p], Raise e)
      | Ok b =>
          let '(evs, r) := select_files fs rest in
          (FsIsFile p :: evs,
           match r with
           | Ok kept => Ok (if b then resolve fs p :: kept else kept)
           | Raise e => Raise e
           end)
      end
  end.

Definition gather_m3u_files (fs : FS) (root : Path) : list event * result (list Path) :=
  match is_file fs root with
  | Raise e => ([FsIsFile root], Raise e)
  | Ok true =>
      if negb (str_eqb (lower (suffix root)) (py ".m3u")) then
        ([FsIsFile root], Raise (ValueError root))
      else ([FsIsFile root], Ok [resolve fs root])
  | Ok false =>
      match is_dir fs root with
      | Raise e => ([FsIsFile root; FsIsDir root], Raise e)
      | Ok false => ([FsIsFile root; FsIsDir root], Raise (NotADirectoryError root))
      | Ok true =>
          (* non-recursive glob *)
          let found := glob fs root (py "*.m3u") in
          let '(evs, r) := select_files fs found in
          ([FsIsFile root; FsIsDir root; FsGlob root (py "*.m3u")] ++ evs,
           match r with
           | Ok kept => Ok (sorted kept)
           | Raise e => Raise e
           end)
      end
  end.

(** What [_parse_cli()] and the line after it make of the command line: the
    path given with [-p], expanded and resolved; the exit [argparse] takes
    by itself (status 2 on a usage error, status 0 after [-h]); or the
    exception [expanduser()] or [resolve()] ends with (no home directory,
    no working directory, a loop of links). *)
Inductive cli : Type :=
| CliPath (target : Path)   (* [args.path.expanduser().resolve()] *)
| CliExit (code : Z)
| CliRaise (e : exn).

Section Run.

Variable raises_for_status : Z -> bool.
Variable default_headers : list (str * str).
Variable cfg : Settings.
Variable server : Server.
Variable fs_discovery : FS.
Variable fs_upload : nat -> FS.

Definition upload_one (session : Session) (i : nat) (sent : list Request)
    (m3u_path : Path) : list event * result unit :=
  let '(ev1, r1) := parse_m3u (fs_upload i) m3u_path in
  match r1 with
  | Raise e => (ev1, Raise e)
  | Ok songs =>
      let playlist_name := stem m3u_path in
      let payload := [(py "title", JString playlist_name); (py "songs", JArray songs)] in
      let '(ev2, r2) :=
        api_request raises_for_status cfg server sent session
          (py "POST") (py "/api/v1/playlist/save") payload in
      match r2 with
      | Raise e => (ev1 ++ ev2, Raise e)
      | Ok _ => (ev1 ++ ev2, Ok tt)
      end
  end.

Fixpoint upload_loop (session : Session) (i : nat) (sent : list Request)
    (m3u_files : list Path) : list event :=
  match m3u_files with
  | [] => []
  | m3u_path :: rest =>
      let '(evs, r) := upload_one session i sent m3u_path in
      match r with
      | Ok _ => evs ++ upload_loop session (S i) (sent ++ http_calls evs) rest
      | Raise _ => evs ++ upload_loop session (S i) (sent ++ http_calls evs) rest
      end
  end.

Definition main (args : cli) : list event * outcome :=
  (* Validate config *)
  match validate cfg with
  | Raise (RuntimeError _) => ([], Exit 1)
  | Raise e => ([], Uncaught e)
  | Ok _ =>
      (* Parse arguments *)
      match args with
      | CliExit code => ([], Exit code)
      | CliRaise e => ([], Uncaught e)
      | CliPath target =>
          (* Resolve playlist files *)
          let '(ev1, found) := gather_m3u_files fs_discovery target in
          match found with
          | Raise (FileNotFoundError _) | Raise (ValueError _)
          | Raise (NotADirectoryError _) => (ev1, Exit 1)
          | Raise e => (ev1, Uncaught e)
          | Ok [] => (ev1, Exit 1)
          | Ok m3u_files =>
              (* HTTP session + login *)
              let session := main_session default_headers in
              let '(ev2, logged_in) := login raises_for_status cfg server [] session in
              match logged_in with
              | Raise _ => (ev1 ++ ev2, Exit 1)
              | Ok session' =>
                  (* Upload each playlist *)
                  (ev1 ++ ev2 ++ upload_loop session' 0 (http_calls ev2) m3u_files, Exit 0)
              end
          end
      end
  end.

(** The uploads a run owes its files, as [uploads_due] above. *)
Fixpoint uploads_due (session : Session) (i : nat) (m3u_files : list Path) : list Request :=
  match m3u_files with
  | [] => []
  | m3u_path :: rest =>
      match snd (parse_m3u (fs_upload i) m3u_path) with
      | Ok songs => save_request cfg session (stem m3u_path) songs :: uploads_due session (S i) rest
      | Raise _ => uploads_due session (S i) rest
      end
  end.

End Run.

End Posix.

(** A plain tree as a tree with links, and the file system that refuses
    nothing on it. *)
Fixpoint plain (n : Node) : Posix.Node :=
  match n with
  | RegularFile text => Posix.File text
  | Directory es => Posix.Dir (map (fun kc => match kc with (k, c) => (k, plain c) end) es)
  | Special => Posix.Other
  end.

Definition plain_fs (fs : Node) : Posix.FS :=
  {| Posix.tree := plain fs;
     Posix.stat_error := fun _ => false;
     Posix.scandir_denied := fun _ => false;
     Posix.open_error := fun _ => false |}.

(* ------------------------------------------------------------------ *)
(** ** The specification's wording of the parser

    These follow the sentences of the specification, not the code; the
    theorems below compare them with [parse_m3u]. *)

(** The first character of a line that is not whitespace. *)
Definition first_non_whitespace (raw_line : str) : option char :=
  find (fun c => negb (isspace c)) raw_line.

(** A line is kept when it is non-empty after trimming and its first
    non-whitespace character is not [#]. *)
Definition is_track_line (raw_line : str) : bool :=
  negb (str_eqb (strip raw_line) [])
  && match first_non_whitespace raw_line with
     | Some c => negb (N.eqb c char_hash)
     | None => true
     end.

(** The kept lines, trimmed, in file order. *)
Definition spec_tracks (text : str) : list str :=
  map strip (filter is_track_line (file_lines text)).

(** A blank line, or a comment. *)
Definition is_blank_or_comment (raw_line : str) : Prop :=
  strip raw_line = [] \/ first_non_whitespace raw_line = Some char_hash.

(** The playlist extension, compared without regard to case: the name ends
    in a dot, [m] or [M], [3], [u] or [U], and something precedes the dot. *)
Definition has_playlist_extension (nm : str) : bool :=
  match rev nm with
  | c :: b :: a :: d :: _ :: _ =>
      N.eqb d 46 && (N.eqb a 109 || N.eqb a 77) && N.eqb b 51
      && (N.eqb c 117 || N.eqb c 85)
  | _ => false
  end.

(* ------------------------------------------------------------------ *)
(** ** A sample installation

    The [requests] library as released ([raise_for_status] raises on 4xx and
    5xx), a music directory and a server, used to run the theorems below on
    concrete inputs. *)

Definition requests_raise_for_status (status : Z) : bool :=
  ((400 <=? status) && (status <? 600))%Z.

Definition requests_default_headers : list (str * str) :=
  [(py "User-Agent", py "python-requests");
   (py "Accept-Encoding", py "gzip, deflate");
   (py "Accept", py "*/*");
   (py "Connection", py "keep-alive")].

Definition sample_playlist : str :=
  py "#EXTM3U" ++ [char_LF] ++ py "  rock/a.mp3  " ++ [char_CR; char_LF] ++ [char_LF]
  ++ py "   # a note" ++ [char_CR] ++ py "jazz/b c.flac".

Definition sample_comments_only : str :=
  py "#EXTM3U" ++ [char_LF] ++ py "   " ++ [char_LF] ++ py "  # nothing here" ++ [char_LF].

Definition sample_music : list (str * Node) :=
  [(py "b.m3u", RegularFile sample_playlist);
   (py "notes.txt", RegularFile (py "not a playlist"));
   (py "a.m3u", RegularFile sample_comments_only);
   (py "SONGS.M3U", RegularFile sample_playlist);
   (py "sub.m3u", Directory [(py "deep.m3u", RegularFile sample_playlist)]);
   (py "pipe.m3u", Special);
   (py "c.m3u", RegularFile (py "x.ogg"))].

Definition sample_fs : FS := Directory [(py "music", Directory sample_music)].

(** The same tree after [a.m3u] was deleted. *)
Definition sample_fs_a_gone : FS :=
  Directory [(py "music", Directory (filter (fun e => negb (str_eqb (fst e) (py "a.m3u"))) sample_music))].

(** The sample directory while [a.m3u] is deleted before the first turn. *)
Definition sample_fs_upload (i : nat) : FS :=
  if Nat.eqb i 0 then sample_fs_a_gone else sample_fs.

Definition sample_files : list Path :=
  [[py "music"; py "a.m3u"]; [py "music"; py "b.m3u"]; [py "music"; py "c.m3u"]].

(** A server that answers 200 with a token, except that the request sent
    after [fail_after] others gets [fail_status]. *)
Definition sample_server (fail_after : nat) (fail_status : Z) : Server :=
  fun sent _ =>
    Responded {| status_code := if Nat.eqb (List.length sent) fail_after then fail_status else 200%Z;
                 body := JsonObject (Some (py "t0k3n")) |}.

Definition sample_env : Environ :=
  fun key => if str_eqb key (py "MS_BASE_URL") then Some (py "http://host:3000/") else None.

Definition sample_cfg : Settings := load_settings sample_env.

Definition sample_session : Session :=
  headers_update (main_session requests_default_headers) [(py "X-CSRF-Token", py "t0k3n")].

(** A tree with links: two links in the music directory name one file
    elsewhere, a third names nothing.  [stat] refuses a path with a name of
    more than 255 characters, as file systems do. *)
Definition sample_links : Posix.Node :=
  Posix.Dir
    [(py "music",
      Posix.Dir [(py "b.m3u", Posix.File sample_playlist);
                 (py "l.m3u", Posix.Link [py "elsewhere"; py "t.txt"]);
                 (py "SONGS.M3U", Posix.File sample_playlist);
                 (py "k.m3u", Posix.Link [py "elsewhere"; py "t.txt"]);
                 (py "dangling.m3u", Posix.Link [py "nowhere"])]);
     (py "elsewhere", Posix.Dir [(py "t.txt", Posix.File (py "x.ogg"))])].

Definition name_too_long (p : Path) : bool :=
  existsb (fun nm => (255 <? len nm)%Z) p.

Definition sample_posix : Posix.FS :=
  {| Posix.tree := sample_links;
     Posix.stat_error := name_too_long;
     Posix.scandir_denied := fun _ => false;
     Posix.open_error := fun _ => false |}.

(** A name of 300 characters. *)
Definition long_name : str := repeat 110%N 300.

(** A directory whose one entry is a regular file named [.m3u]. *)
Definition sample_dotfile : Posix.FS :=
  plain_fs (Directory [(py "music", Directory [(py ".m3u", RegularFile (py "x.ogg"))])]).

(** A server that answers every call with status 300 and an empty JSON
    object; the HTTP client follows no redirect from this status. *)
Definition sample_server_300 : Server :=
  fun _ _ => Responded {| status_code := 300%Z; body := JsonObject None |}.

(** The settings when no variable is set. *)
Definition empty_env : Environ := fun _ => None.

(* ------------------------------------------------------------------ *)
(** ** Writing playlists and reading them back

    Notions used to state what [parse_m3u] makes of a file written line by
    line, and what a run sends when the files stay as discovery found them. *)

(** A character that ends no line: neither ["\n"] nor ["\r"]. *)
Definition is_line_char (c : char) : bool :=
  negb (N.eqb c char_LF) && negb (N.eqb c char_CR).

(** The three line endings text files come with. *)
Definition is_terminator (sep : str) : Prop :=
  sep = [char_LF] \/ sep = [char_CR; char_LF] \/ sep = [char_CR].

(** The text of a file holding the lines [ls], each ended by [sep]. *)
Definition write_lines (sep : str) (ls : list str) : str :=
  flat_map (fun l => l ++ sep) ls.

(** The tracks of the file [p] names, read off the tree. *)
Definition tracks_of (fs : Posix.FS) (p : Path) : list str :=
  match Posix.locate fs p with
  | Some (_, Posix.File text) => spec_tracks text
  | _ => []
  end.

(** [n] slashes. *)
Definition slashes (n : nat) : str := repeat 47%N n.


(* ------------------------------------------------------------------ *)
(** ** Strings: basic facts *)

Lemma str_eqb_eq (a b : str) : str_eqb a b = true <-> a = b.
Proof.
  revert b; induction a as [|x a IH]; intros [|y b]; simpl; split; intro H;
    try reflexivity; try discriminate.
  - apply andb_true_iff in H as [Hx Ha].
    apply N.eqb_eq in Hx. apply IH in Ha. congruence.
  - inversion H; subst. rewrite N.eqb_refl. simpl. now apply IH.
Qed.

Lemma str_eqb_neq (a b : str) : str_eqb a b = false <-> a <> b.
Proof.
  split.
  - intros H E. apply str_eqb_eq in E. congruence.
  - intro H. destruct (str_eqb a b) eqn:E; auto.
    apply str_eqb_eq in E. contradiction.
Qed.

Lemma dropwhile_hd (f : char -> bool) (s : str) (c : char) (t : str) :
  dropwhile f s = c :: t -> f c = false.
Proof.
  induction s as [|x s IH]; simpl; [discriminate|].
  destruct (f x) eqn:E; auto.
  intro H; inversion H; subst; assumption.
Qed.

Lemma dropwhile_snoc (f : char -> bool) (s : str) (c : char) :
  f c = false -> dropwhile f (s ++ [c]) = dropwhile f s ++ [c].
Proof.
  intro Hc. induction s as [|x s IH]; simpl.
  - now rewrite Hc.
  - destruct (f x); auto.
Qed.

Lemma rstrip_where_cons (f : char -> bool) (c : char) (s : str) :
  f c = false -> rstrip_where f (c :: s) = c :: rstrip_where f s.
Proof.
  intro Hc. unfold rstrip_where. simpl.
  rewrite dropwhile_snoc by assumption.
  now rewrite rev_app_distr.
Qed.

Lemma find_dropwhile (f : char -> bool) (s : str) :
  find (fun c => negb (f c)) s = hd_error (dropwhile f s).
Proof.
  induction s as [|x s IH]; simpl; auto.
  destruct (f x); simpl; auto.
Qed.

(** [strip] starts at the first character that is not whitespace. *)
Lemma strip_first (raw : str) :
  match first_non_whitespace raw with
  | None => strip raw = []
  | Some c => exists t, strip raw = c :: t
  end.
Proof.
  unfold first_non_whitespace, strip, lstrip_where.
  rewrite find_dropwhile.
  destruct (dropwhile isspace raw) as [|c t] eqn:E; simpl.
  - reflexivity.
  - exists (rstrip_where isspace t).
    apply rstrip_where_cons. eapply dropwhile_hd; eauto.
Qed.

(** The loop body of [parse_m3u] keeps exactly the track lines. *)
Lemma parse_line_spec (songs : list str) (raw : str) :
  parse_line songs raw =
  if is_track_line raw then songs ++ [strip raw] else songs.
Proof.
  unfold parse_line, is_track_line.
  pose proof (strip_first raw) as H.
  destruct (first_non_whitespace raw) as [c|].
  - destruct H as [t Ht]. rewrite Ht.
    change (py "#") with [char_hash]. cbn -[N.eqb].
    rewrite andb_true_r, (N.eqb_sym char_hash c).
    destruct (N.eqb c char_hash); reflexivity.
  - rewrite H. reflexivity.
Qed.

Lemma fold_parse_line (ls : list str) (songs : list str) :
  fold_left parse_line ls songs = songs ++ map strip (filter is_track_line ls).
Proof.
  revert songs; induction ls as [|raw ls IH]; intro songs; simpl.
  - now rewrite app_nil_r.
  - rewrite IH, parse_line_spec.
    destruct (is_track_line raw); simpl; auto.
    now rewrite <- app_assoc.
Qed.

Lemma read_text_is_file (fs : FS) (p : Path) (text : str) :
  lookup fs p = Some (RegularFile text) ->
  is_file fs p = true /\ read_text fs p = Some text.
Proof. unfold is_file, read_text. intros ->. auto. Qed.


(* ------------------------------------------------------------------ *)
(** ** Paths: order, names, glob *)







Lemma in_sorted (l : list Path) (p : Path) : In p (sorted l) <-> In p l.
Proof.
  pose proof (PathSort.Permuted_sort l) as P. split; intro H.
  - eapply Permutation_in; [apply Permutation_sym; exact P | exact H].
  - eapply Permutation_in; [exact P | exact H].
Qed.

Lemma name_joinpath (p : Path) (child : str) : name (joinpath p child) = child.
Proof. unfold name, joinpath. apply last_last. Qed.

Lemma fnmatch_star (pat n : str) :
  fnmatch (char_star :: pat) n =
  fnmatch pat n || match n with [] => false | _ :: n' => fnmatch (char_star :: pat) n' end.
Proof. destruct n; reflexivity. Qed.

Lemma fnmatch_literal (pat n : str) :
  forallb (fun c => negb (N.eqb c char_star)) pat = true ->
  fnmatch pat n = str_eqb pat n.
Proof.
  revert n; induction pat as [|c pat IH]; intros n H.
  - destruct n; reflexivity.
  - simpl in H. apply andb_true_iff in H as [Hc Hp].
    apply negb_true_iff in Hc.
    cbn -[N.eqb]. rewrite Hc. destruct n as [|d n]; auto.
    cbn -[N.eqb]. now rewrite IH.
Qed.

(** A name matches [*lit] exactly when it ends with [lit]. *)
Lemma fnmatch_star_literal (lit n : str) :
  forallb (fun c => negb (N.eqb c char_star)) lit = true ->
  fnmatch (char_star :: lit) n = true <-> exists pre, n = pre ++ lit.
Proof.
  intro Hl. induction n as [|d n IH].
  - rewrite fnmatch_star, fnmatch_literal, orb_false_r by assumption.
    rewrite str_eqb_eq. split.
    + intros ->. now exists [].
    + intros [pre H]. symmetry in H. apply app_eq_nil in H. apply H.
  - rewrite fnmatch_star, fnmatch_literal by assumption.
    rewrite orb_true_iff, str_eqb_eq, IH. split.
    + intros [<- | [pre ->]]; [now exists [] | now exists (d :: pre)].
    + intros [[|x pre] H]; simpl in H.
      * left. congruence.
      * right. exists pre. congruence.
Qed.

Lemma fnmatch_m3u (n : str) :
  fnmatch (py "*.m3u") n = true <-> exists pre, n = pre ++ py ".m3u".
Proof. apply (fnmatch_star_literal (py ".m3u")). reflexivity. Qed.

Lemma in_glob (fs : FS) (root : Path) (pattern : str) (p : Path) :
  In p (glob fs root pattern) <->
  exists nm, p = joinpath root nm /\ In nm (scandir fs root) /\ fnmatch pattern nm = true.
Proof.
  unfold glob. rewrite in_map_iff. split.
  - intros [nm [<- H]]. apply filter_In in H. eauto.
  - intros [nm [-> H]]. exists nm. split; auto. now apply filter_In.
Qed.

Lemma is_dir_not_file (fs : FS) (p : Path) : is_dir fs p = true -> is_file fs p = false.
Proof.
  unfold is_dir, is_file. destruct (lookup fs p) as [[]|]; auto; discriminate.
Qed.

Lemma map_resolve (l : list Path) : map resolve l = l.
Proof. apply map_id. Qed.

(** What [gather_m3u_files] returns, case by case. *)
Lemma gather_file (fs : FS) (root : Path) :
  is_file fs root = true ->
  snd (gather_m3u_files fs root) =
  if str_eqb (lower (suffix root)) (py ".m3u") then Ok [root] else Raise (ValueError root).
Proof.
  intro H. unfold gather_m3u_files. rewrite H.
  destruct (str_eqb (lower (suffix root)) (py ".m3u")); reflexivity.
Qed.

Lemma gather_missing (fs : FS) (root : Path) :
  is_file fs root = false -> is_dir fs root = false ->
  snd (gather_m3u_files fs root) = Raise (NotADirectoryError root).
Proof. intros H1 H2. unfold gather_m3u_files. now rewrite H1, H2. Qed.

Lemma gather_dir (fs : FS) (root : Path) :
  is_dir fs root = true ->
  snd (gather_m3u_files fs root) =
  Ok (sorted (filter (is_file fs) (glob fs root (py "*.m3u")))).
Proof.
  intro H. unfold gather_m3u_files.
  rewrite (is_dir_not_file _ _ H), H. simpl. now rewrite map_resolve.
Qed.

Lemma http_calls_app (a b : list event) :
  http_calls (a ++ b) = http_calls a ++ http_calls b.
Proof.
  induction a as [|e a IH]; simpl; auto.
  destruct e; simpl; auto. now rewrite IH.
Qed.

Lemma http_calls_fs (tr : list event) :
  forallb is_fs_event tr = true -> http_calls tr = [].
Proof.
  induction tr as [|e tr IH]; simpl; auto.
  destruct e; simpl; auto; discriminate.
Qed.

Lemma gather_only_fs (fs : FS) (root : Path) :
  forallb is_fs_event (fst (gather_m3u_files fs root)) = true.
Proof.
  unfold gather_m3u_files.
  destruct (is_file fs root).
  - destruct (negb _); reflexivity.
  - destruct (negb (is_dir fs root)); simpl; auto.
    induction (glob fs root (py "*.m3u")); simpl; auto.
Qed.

Lemma parse_only_fs (fs : FS) (p : Path) :
  forallb is_fs_event (fst (parse_m3u fs p)) = true.
Proof.
  unfold parse_m3u. destruct (negb (is_file fs p)); auto.
  destruct (read_text fs p); reflexivity.
Qed.

Lemma stem_nonempty (p : Path) : name p <> [] -> stem p <> [].
Proof.
  unfold stem. intro H. destruct (has_suffix (name p)) eqn:E; auto.
  unfold has_suffix in E. apply andb_true_iff in E as [E1 E2].
  apply Z.ltb_lt in E1, E2. unfold slice_to, len in *.
  intro C. apply (f_equal (@List.length char)) in C.
  rewrite length_firstn in C. simpl in C. lia.
Qed.

Lemma suffix_name_nonempty (p : Path) : suffix p <> [] -> name p <> [].
Proof.
  unfold suffix. intros H E. rewrite E in H. apply H. reflexivity.
Qed.

Lemma accepted_suffix_name (p : Path) :
  lower (suffix p) = py ".m3u" -> name p <> [].
Proof.
  intro H. apply suffix_name_nonempty. intro E. rewrite E in H. discriminate.
Qed.

Lemma gather_raises (fs : FS) (root : Path) (e : exn) :
  snd (gather_m3u_files fs root) = Raise e ->
  e = ValueError root \/ e = NotADirectoryError root.
Proof.
  unfold gather_m3u_files.
  destruct (is_file fs root).
  - destruct (negb _); simpl; intro H; inversion H; auto.
  - destruct (negb (is_dir fs root)); simpl; intro H; inversion H; auto.
Qed.

Lemma validate_cases (cls : Settings) :
  validate cls = Ok tt \/
  exists missing, missing <> [] /\ validate cls = Raise (RuntimeError missing).
Proof.
  unfold validate.
  destruct (filter _ _REQUIRED_KEYS) as [|k ks]; auto.
  right. exists (k :: ks). split; [discriminate | reflexivity].
Qed.

Lemma validate_ok_iff (cls : Settings) :
  validate cls = Ok tt <->
  BASE_URL cls <> [] /\ USERNAME cls <> [] /\ PASSWORD cls <> [].
Proof.
  unfold validate, _REQUIRED_KEYS. cbn [filter].
  change (getattr cls (py "BASE_URL")) with (Some (BASE_URL cls)).
  change (getattr cls (py "USERNAME")) with (Some (USERNAME cls)).
  change (getattr cls (py "PASSWORD")) with (Some (PASSWORD cls)).
  destruct (BASE_URL cls), (USERNAME cls), (PASSWORD cls); simpl;
    split; intro H; try discriminate; try reflexivity;
    try (repeat split; discriminate); destruct H as [A [B C]]; congruence.
Qed.

(* ------------------------------------------------------------------ *)
(** ** The control flow of [main] *)

Section MainFacts.

Variable raises_for_status : Z -> bool.
Variable default_headers : list (str * str).
Variable cfg : Settings.
Variable server : Server.
Variable fs_discovery : FS.
Variable fs_upload : nat -> FS.

Local Abbreviation main' := (main raises_for_status default_headers cfg server fs_discovery fs_upload).
Local Abbreviation login' := (login raises_for_status cfg server).
Local Abbreviation api_request' := (api_request raises_for_status cfg server).
Local Abbreviation upload_one' := (upload_one raises_for_status cfg server fs_upload).
Local Abbreviation upload_loop' := (upload_loop raises_for_status cfg server fs_upload).
Local Abbreviation session0 := (main_session default_headers).

Lemma api_request_events sent session method endpoint payload :
  fst (api_request' sent session method endpoint payload) =
  [Http (prepare cfg session method endpoint payload)].
Proof.
  unfold api_request.
  destruct (server sent _) as [resp|]; [destruct (raises_for_status _)|]; reflexivity.
Qed.

Lemma login_events sent session :
  fst (login' sent session) = [Http (login_request cfg session)].
Proof.
  unfold login, login_request.
  pose proof (api_request_events sent session (py "POST") (py "/api/v1/auth/login")
    [(py "username", JString (USERNAME cfg)); (py "password", JString (PASSWORD cfg))]) as E.
  destruct (api_request' _ _ _ _ _) as [evs r]. simpl in E. subst evs.
  destruct r as [resp|e]; [|reflexivity].
  destruct (body resp) as [|csrf|]; try reflexivity.
  destruct (truthy csrf); reflexivity.
Qed.

(** When [login] raises: no response, a status [raise_for_status] rejects,
    or a body that is not a JSON object. *)
Lemma login_raises_iff sent session :
  (exists e, snd (login' sent session) = Raise e) <->
  (server sent (login_request cfg session) = NoResponse \/
   exists resp, server sent (login_request cfg session) = Responded resp /\
     (raises_for_status (status_code resp) = true \/
      body resp = NotJson \/ body resp = JsonOther)).
Proof.
  unfold login, api_request, login_request.
  destruct (server sent _) as [resp|] eqn:S.
  - destruct (raises_for_status (status_code resp)) eqn:R; simpl.
    + split; [intros _; right; exists resp; auto | intros _; eauto].
    + destruct (body resp) as [|csrf|] eqn:B; simpl.
      * split; [intros _; right; exists resp; auto | intros _; eauto].
      * split.
        -- intros [e H]. destruct (truthy csrf); discriminate.
        -- intros [H | [r [H [H1 | [H1 | H1]]]]]; try discriminate;
             inversion H; subst; congruence.
      * split; [intros _; right; exists resp; auto | intros _; eauto].
  - simpl. split; [auto | intros _; eauto].
Qed.

Lemma upload_one_events session i sent p :
  fst (upload_one' session i sent p) =
  fst (parse_m3u (fs_upload i) p) ++
  match snd (parse_m3u (fs_upload i) p) with
  | Ok songs => [Http (save_request cfg session (stem p) songs)]
  | Raise _ => []
  end.
Proof.
  unfold upload_one, save_request.
  destruct (parse_m3u (fs_upload i) p) as [ev1 [songs|e]]; simpl.
  - pose proof (api_request_events sent session (py "POST") (py "/api/v1/playlist/save")
      [(py "title", JString (stem p)); (py "songs", JArray songs)]) as E.
    destruct (api_request' _ _ _ _ _) as [ev2 r]. simpl in E. subst ev2.
    destruct r; reflexivity.
  - now rewrite app_nil_r.
Qed.

Lemma upload_loop_step session i sent p rest :
  upload_loop' session i sent (p :: rest) =
  fst (upload_one' session i sent p) ++
  upload_loop' session (S i) (sent ++ http_calls (fst (upload_one' session i sent p))) rest.
Proof.
  simpl. destruct (upload_one' session i sent p) as [evs [u|e]]; reflexivity.
Qed.

(** The loop sends exactly the uploads due, whatever the server replies. *)
Lemma upload_loop_http session files : forall i sent,
  http_calls (upload_loop' session i sent files) = uploads_due cfg fs_upload session i files.
Proof.
  induction files as [|p rest IH]; intros i sent; [reflexivity|].
  rewrite upload_loop_step, http_calls_app, IH, upload_one_events, http_calls_app.
  rewrite (http_calls_fs _ (parse_only_fs (fs_upload i) p)).
  cbn [uploads_due]. destruct (snd (parse_m3u (fs_upload i) p)); reflexivity.
Qed.

(** The loop performs exactly the attempts due. *)
Lemma upload_loop_trace session files : forall i sent,
  upload_loop' session i sent files = attempts cfg fs_upload session i files.
Proof.
  induction files as [|p rest IH]; intros i sent; [reflexivity|].
  rewrite upload_loop_step, IH, upload_one_events.
  cbn [attempts]. now rewrite <- app_assoc.
Qed.

(** Every file gets its turn: the events of its parse are in the trace. *)
Lemma upload_loop_parses session files : forall i sent k p,
  nth_error files k = Some p ->
  incl (fst (parse_m3u (fs_upload (i + k)) p)) (upload_loop' session i sent files).
Proof.
  induction files as [|q rest IH]; intros i sent k p H.
  - destruct k; discriminate.
  - rewrite upload_loop_step. destruct k as [|k]; simpl in H.
    + inversion H; subst. rewrite Nat.add_0_r, upload_one_events.
      intros e He. apply in_or_app. left. apply in_or_app. now left.
    + intros e He. apply in_or_app. right.
      replace (i + S k)%nat with (S i + k)%nat in He by lia.
      eapply IH; eauto.
Qed.

Lemma uploads_due_in session files : forall i k p songs,
  nth_error files k = Some p ->
  snd (parse_m3u (fs_upload (i + k)) p) = Ok songs ->
  In (save_request cfg session (stem p) songs) (uploads_due cfg fs_upload session i files).
Proof.
  induction files as [|q rest IH]; intros i k p songs H Hp.
  - destruct k; discriminate.
  - destruct k as [|k]; simpl in H.
    + inversion H; subst. rewrite Nat.add_0_r in Hp. simpl. rewrite Hp. now left.
    + replace (i + S k)%nat with (S i + k)%nat in Hp by lia.
      specialize (IH (S i) k p songs H Hp). simpl.
      destruct (snd (parse_m3u (fs_upload i) q)); [right|]; assumption.
Qed.

Lemma uploads_due_from session files : forall i r,
  In r (uploads_due cfg fs_upload session i files) ->
  exists p songs, In p files /\ r = save_request cfg session (stem p) songs.
Proof.
  induction files as [|q rest IH]; intros i r H; simpl in H; [contradiction|].
  destruct (snd (parse_m3u (fs_upload i) q)) as [songs|e].
  - destruct H as [<- | H].
    + exists q, songs. split; [now left | reflexivity].
    + destruct (IH _ _ H) as [p [s [Hin E]]]. exists p, s. split; [now right | exact E].
  - destruct (IH _ _ H) as [p [s [Hin E]]]. exists p, s. split; [now right | exact E].
Qed.

(** The five ways through [main]. *)
Lemma main_config_error target :
  validate cfg <> Ok tt -> main' target = ([], Exit 1).
Proof.
  intro H. unfold main.
  destruct (validate_cases cfg) as [E | [m [_ E]]]; [contradiction|].
  now rewrite E.
Qed.

Lemma main_discovery_error target e :
  validate cfg = Ok tt ->
  snd (gather_m3u_files fs_discovery target) = Raise e ->
  main' target = (fst (gather_m3u_files fs_discovery target), Exit 1).
Proof.
  intros V G. unfold main. rewrite V.
  destruct (gather_raises _ _ G) as [-> | ->];
    destruct (gather_m3u_files fs_discovery target) as [ev1 found];
    simpl in G; subst found; reflexivity.
Qed.

Lemma main_no_files target :
  validate cfg = Ok tt ->
  snd (gather_m3u_files fs_discovery target) = Ok [] ->
  main' target = (fst (gather_m3u_files fs_discovery target), Exit 1).
Proof.
  intros V G. unfold main. rewrite V.
  destruct (gather_m3u_files fs_discovery target) as [ev1 found].
  simpl in G; subst found; reflexivity.
Qed.

Lemma main_login_error target files e :
  validate cfg = Ok tt ->
  snd (gather_m3u_files fs_discovery target) = Ok files -> files <> [] ->
  snd (login' [] session0) = Raise e ->
  main' target =
  (fst (gather_m3u_files fs_discovery target) ++ [Http (login_request cfg session0)], Exit 1).
Proof.
  intros V G N L. unfold main. rewrite V.
  destruct (gather_m3u_files fs_discovery target) as [ev1 found].
  simpl in G; subst found. destruct files as [|p rest]; [contradiction|].
  pose proof (login_events [] session0) as E.
  destruct (login' [] session0) as [ev2 r]. simpl in *. subst. reflexivity.
Qed.

Lemma main_uploads target files session :
  validate cfg = Ok tt ->
  snd (gather_m3u_files fs_discovery target) = Ok files -> files <> [] ->
  snd (login' [] session0) = Ok session ->
  main' target =
  (fst (gather_m3u_files fs_discovery target) ++ [Http (login_request cfg session0)] ++
   upload_loop' session 0 [login_request cfg session0] files, Exit 0).
Proof.
  intros V G N L. unfold main. rewrite V.
  destruct (gather_m3u_files fs_discovery target) as [ev1 found].
  simpl in G; subst found. destruct files as [|p rest]; [contradiction|].
  pose proof (login_events [] session0) as E.
  destruct (login' [] session0) as [ev2 r]. simpl in *. subst. reflexivity.
Qed.

End MainFacts.

Lemma in_http_calls (tr : list event) (r : Request) :
  In r (http_calls tr) <-> In (Http r) tr.
Proof.
  induction tr as [|e tr IH]; simpl; [tauto|].
  destruct e; simpl; rewrite IH; split; intro H; auto;
    try (destruct H as [H|H]; [discriminate | assumption]).
  - destruct H as [H|H]; [left; congruence | right; assumption].
  - destruct H as [H|H]; [left; congruence | right; assumption].
Qed.

Lemma login_save_urls_differ (cfg : Settings) :
  request_url cfg (py "/api/v1/auth/login") <> request_url cfg (py "/api/v1/playlist/save").
Proof.
  unfold request_url. intro H. apply app_inv_head in H. discriminate.
Qed.

Lemma rstrip_no_trailing (chars s t : str) (c : char) :
  rstrip chars s = t ++ [c] -> char_in chars c = false.
Proof.
  unfold rstrip, rstrip_where. intro H.
  apply (f_equal (@rev char)) in H.
  rewrite rev_involutive, rev_app_distr in H. simpl in H.
  eapply dropwhile_hd; eauto.
Qed.

Lemma lstrip_no_leading (chars s t : str) (c : char) :
  lstrip chars s = c :: t -> char_in chars c = false.
Proof. unfold lstrip, lstrip_where. apply dropwhile_hd. Qed.

(** Every run of [main] is one of these four. *)
Lemma main_cases raises_for_status default_headers cfg server fs_discovery fs_upload target :
  let run := main raises_for_status default_headers cfg server fs_discovery fs_upload target in
  let session0 := main_session default_headers in
  (snd run = Exit 1 /\ http_calls (fst run) = []) \/
  (exists files, validate cfg = Ok tt /\
     snd (gather_m3u_files fs_discovery target) = Ok files /\ files <> [] /\
     ((exists e, snd (login raises_for_status cfg server [] session0) = Raise e /\
         snd run = Exit 1 /\ http_calls (fst run) = [login_request cfg session0]) \/
      (exists session, snd (login raises_for_status cfg server [] session0) = Ok session /\
         snd run = Exit 0 /\
         http_calls (fst run) =
           login_request cfg session0 :: uploads_due cfg fs_upload session 0 files))).
Proof.
  intros run session0. subst run.
  destruct (validate_cases cfg) as [V | [m [_ V]]].
  2:{ left. rewrite (@main_config_error raises_for_status default_headers cfg server fs_discovery fs_upload target) by congruence. auto. }
  pose proof (http_calls_fs _ (gather_only_fs fs_discovery target)) as Hfs.
  destruct (snd (gather_m3u_files fs_discovery target)) as [files|e] eqn:G.
  2:{ left. rewrite (@main_discovery_error raises_for_status default_headers cfg server fs_discovery fs_upload target e V G). auto. }
  destruct files as [|p rest].
  { left. rewrite (@main_no_files raises_for_status default_headers cfg server fs_discovery fs_upload target V G). auto. }
  right. exists (p :: rest). repeat split; auto; try discriminate.
  destruct (snd (login raises_for_status cfg server [] session0)) as [session|e] eqn:L.
  - right. exists session. split; auto.
    rewrite (@main_uploads raises_for_status default_headers cfg server fs_discovery fs_upload target _ session V G ltac:(discriminate) L). cbn [fst snd].
    rewrite !http_calls_app, Hfs. cbn [http_calls app]. now rewrite upload_loop_http.
  - left. exists e. split; auto.
    rewrite (@main_login_error raises_for_status default_headers cfg server fs_discovery fs_upload target _ e V G ltac:(discriminate) L). cbn [fst snd].
    rewrite http_calls_app, Hfs. auto.
Qed.

Lemma blank_or_comment_not_track (raw : str) :
  is_blank_or_comment raw -> is_track_line raw = false.
Proof.
  unfold is_blank_or_comment, is_track_line. intros [H | H]; rewrite H.
  - reflexivity.
  - rewrite N.eqb_refl. apply andb_false_r.
Qed.

Lemma no_tracks (ls : list str) :
  Forall is_blank_or_comment ls -> filter is_track_line ls = [].
Proof.
  induction 1 as [|raw ls H _ IH]; simpl; auto.
  now rewrite (blank_or_comment_not_track H).
Qed.

Lemma main_uploads_http raises_for_status default_headers cfg server
    (fs : FS) (fs_upload : nat -> FS) (target : Path) (files : list Path) (session : Session) :
  validate cfg = Ok tt ->
  snd (gather_m3u_files fs target) = Ok files -> files <> [] ->
  snd (login raises_for_status cfg server [] (main_session default_headers)) = Ok session ->
  http_calls (fst (main raises_for_status default_headers cfg server fs fs_upload target)) =
    login_request cfg (main_session default_headers)
    :: uploads_due cfg fs_upload session 0 files.
Proof.
  intros V G N L.
  rewrite (@main_uploads raises_for_status default_headers cfg server fs fs_upload
             target files session V G N L).
  cbn [fst]. rewrite http_calls_app.
  rewrite (http_calls_fs _ (gather_only_fs fs target)). cbn [app http_calls].
  now rewrite upload_loop_http.
Qed.

Lemma rfind_from_absent (c : char) (s : str) (i : Z) :
  (forall x, In x s -> x <> c) -> rfind_from c s i = (-1)%Z.
Proof.
  revert i; induction s as [|d s IH]; intros i H; simpl; auto.
  rewrite IH by (intros x Hx; apply H; now right). simpl.
  destruct (N.eqb_spec d c) as [E|E]; auto.
  exfalso. apply (H d); [now left | exact E].
Qed.

Lemma rfind_from_last (c : char) (a b : str) (i : Z) :
  (0 <= i)%Z -> (forall x, In x b -> x <> c) ->
  rfind_from c (a ++ c :: b) i = (i + len a)%Z.
Proof.
  revert i; induction a as [|x a IH]; intros i Hi Hb.
  - simpl. rewrite rfind_from_absent by assumption. simpl.
    rewrite N.eqb_refl. unfold len. simpl. lia.
  - cbn [app rfind_from]. rewrite IH by (auto; lia).
    unfold len in *. cbn [List.length].
    destruct (Z.leb_spec 0 (i + 1 + Z.of_nat (List.length a))); lia.
Qed.

(** A name [pre.m3u] with a non-empty [pre] has suffix [.m3u] and stem [pre]. *)
Lemma suffix_of_m3u_name (p : Path) (pre : str) :
  name p = pre ++ py ".m3u" -> pre <> [] ->
  suffix p = py ".m3u" /\ stem p = pre.
Proof.
  intros E N. unfold suffix, stem, has_suffix. rewrite E.
  change (py ".m3u") with (char_dot :: py "m3u").
  assert (R : rfind char_dot (pre ++ char_dot :: py "m3u") = len pre).
  { unfold rfind. rewrite rfind_from_last; [lia | lia |].
    intros x [<- | [<- | [<- | []]]]; discriminate. }
  rewrite R.
  assert (L : (0 < len pre)%Z) by (destruct pre; [contradiction | unfold len; simpl; lia]).
  assert (L' : (len pre < len (pre ++ char_dot :: py "m3u") - 1)%Z).
  { unfold len. rewrite length_app. simpl. lia. }
  apply Z.ltb_lt in L, L'. rewrite L, L'. simpl.
  unfold slice_from, slice_to, len. rewrite Nat2Z.id. split.
  - rewrite skipn_app, skipn_all, Nat.sub_diag. reflexivity.
  - rewrite firstn_app, firstn_all, Nat.sub_diag. simpl. apply app_nil_r.
Qed.

Lemma in_dict_set (d : list (str * str)) (k v : str) : In (k, v) (dict_set d k v).
Proof.
  induction d as [|[k' v'] d IH]; simpl; [now left|].
  destruct (str_eqb k k'); [now left | now right].
Qed.

(** The members of a directory listing. *)
Lemma gather_dir_members (fs : FS) (root : Path) (p : Path) :
  In p (sorted (filter (is_file fs) (glob fs root (py "*.m3u")))) <->
  exists nm, p = joinpath root nm /\ In nm (scandir fs root) /\
             is_file fs p = true /\ exists pre, nm = pre ++ py ".m3u".
Proof.
  rewrite in_sorted, filter_In, in_glob. split.
  - intros [[nm [-> [Hin Hm]]] Hf]. exists nm. repeat split; auto.
    now apply fnmatch_m3u.
  - intros [nm [-> [Hin [Hf Hm]]]]. split; auto.
    exists nm. repeat split; auto. now apply fnmatch_m3u.
Qed.

(** A path [gather_m3u_files] returns has a non-empty stem. *)
Lemma accepted_stem_nonempty (fs : FS) (root : Path) (files : list Path) (p : Path) :
  snd (gather_m3u_files fs root) = Ok files -> In p files -> stem p <> [].
Proof.
  intros G Hin. apply stem_nonempty.
  destruct (is_file fs root) eqn:F.
  - rewrite (gather_file _ _ F) in G.
    destruct (str_eqb (lower (suffix root)) (py ".m3u")) eqn:E; [|discriminate].
    inversion G; subst. destruct Hin as [<- | []].
    apply accepted_suffix_name. now apply str_eqb_eq.
  - destruct (is_dir fs root) eqn:D.
    + rewrite (gather_dir _ _ D) in G. inversion G; subst.
      apply gather_dir_members in Hin as [nm [-> [_ [_ [pre ->]]]]].
      rewrite name_joinpath. intro C. apply app_eq_nil in C as [_ C]. discriminate.
    + rewrite (gather_missing _ _ F D) in G. discriminate.
Qed.

(* ------------------------------------------------------------------ *)
(** ** The playlist parser *)

(** C1. For every playlist file, whatever its content, [parse_m3u] returns
    exactly the lines that are non-empty after trimming surrounding
    whitespace and whose first non-whitespace character is not [#], each of
    them trimmed, in the order of the file. *)
Theorem parse_m3u_returns_track_lines (fs : FS) (file_path : Path) (text : str) :
  lookup fs file_path = Some (RegularFile text) ->
  snd (parse_m3u fs file_path) = Ok (spec_tracks text).
Proof.
  intro H. apply read_text_is_file in H as [Hf Hr].
  unfold parse_m3u. rewrite Hf, Hr. simpl.
  now rewrite fold_parse_line.
Qed.

(** The sample playlist [b.m3u]: two tracks. *)
Lemma parse_m3u_sample_witness :
  lookup sample_fs [py "music"; py "b.m3u"] = Some (RegularFile sample_playlist) /\
  snd (parse_m3u sample_fs [py "music"; py "b.m3u"]) = Ok (spec_tracks sample_playlist) /\
  spec_tracks sample_playlist = [py "rock/a.mp3"; py "jazz/b c.flac"].
Proof.
  split; [reflexivity|]. split; [|reflexivity].
  apply (@parse_m3u_returns_track_lines sample_fs [py "music"; py "b.m3u"] sample_playlist).
  reflexivity.
Defined.

(* ------------------------------------------------------------------ *)
(** ** The file locator *)

(** C9. Every file accepted by [gather_m3u_files] has a non-empty stem, and
    every playlist-save request a run sends carries a non-empty title. *)
Theorem playlist_title_nonempty raises_for_status default_headers cfg server
    (fs : FS) (fs_upload : nat -> FS) (target : Path) :
  (forall files p,
     snd (gather_m3u_files fs target) = Ok files -> In p files -> stem p <> []) /\
  (forall r,
     In r (http_calls (fst (main raises_for_status default_headers cfg server fs fs_upload target))) ->
     req_url r = request_url cfg (py "/api/v1/playlist/save") ->
     exists title songs,
       req_json r = [(py "title", JString title); (py "songs", JArray songs)] /\ title <> []).
Proof.
  split; [intros files p; apply accepted_stem_nonempty|].
  intros r Hr Hu.
  destruct (main_cases raises_for_status default_headers cfg server fs fs_upload target)
    as [[_ H] | [fl [_ [G' [_ [[e [_ [_ H]]] | [session [_ [_ H]]]]]]]]];
    cbv zeta in H; rewrite H in Hr.
  - contradiction.
  - destruct Hr as [<- | []]. exfalso. revert Hu. apply login_save_urls_differ.
  - destruct Hr as [<- | Hr].
    + exfalso. revert Hu. apply login_save_urls_differ.
    + apply uploads_due_from in Hr as [q [songs [Hq ->]]].
      exists (stem q), songs. split; [reflexivity | eapply accepted_stem_nonempty; eauto].
Qed.

(* ------------------------------------------------------------------ *)
(** ** Request URLs and configuration *)

(** C7. The URL of a request is the configured base URL without its
    trailing slashes, one slash, and the endpoint without its leading
    slashes: the first part does not end in a slash and the last does not
    start with one.  Base [http://host:3000/] and endpoint
    [/api/v1/auth/login] give [http://host:3000/api/v1/auth/login]. *)
Theorem request_url_one_slash (env : Environ) (endpoint : str) :
  (forall raises_for_status server sent session method payload,
     exists req,
       fst (api_request raises_for_status (load_settings env) server sent session
              method endpoint payload) = [Http req] /\
       req_url req =
         rstrip (py "/") (getenv env (py "MS_BASE_URL") (py "http://127.0.0.1:3000"))
         ++ py "/" ++ lstrip (py "/") endpoint) /\
  (forall s, rstrip (py "/") (getenv env (py "MS_BASE_URL") (py "http://127.0.0.1:3000"))
             <> s ++ py "/") /\
  (forall s, lstrip (py "/") endpoint <> py "/" ++ s) /\
  (getenv env (py "MS_BASE_URL") (py "http://127.0.0.1:3000") = py "http://host:3000/" ->
   request_url (load_settings env) (py "/api/v1/auth/login") =
     py "http://host:3000/api/v1/auth/login").
Proof.
  split; [|split; [|split]].
  - intros. eexists. split; [apply api_request_events | reflexivity].
  - intros s H. apply rstrip_no_trailing in H. discriminate.
  - intros s H. apply lstrip_no_leading in H. discriminate.
  - intro H. unfold request_url, load_settings. cbn [BASE_URL]. rewrite H. reflexivity.
Qed.

(* ------------------------------------------------------------------ *)
(** ** The upload orchestrator *)

(** C3. Once configuration, discovery and login have succeeded, [main]
    exits with code 0 and its trace is the discovery, the login and then
    one attempt per discovered file, in order: the file is probed and read
    and, if it parsed, submitted.  No reply of the server (an error status,
    no response at all) and no failed parse (a file gone since discovery)
    changes what happens to the other files. *)
Theorem upload_failures_do_not_abort raises_for_status default_headers cfg server
    (fs : FS) (fs_upload : nat -> FS) (target : Path) (files : list Path) (session : Session) :
  validate cfg = Ok tt ->
  snd (gather_m3u_files fs target) = Ok files -> files <> [] ->
  snd (login raises_for_status cfg server [] (main_session default_headers)) = Ok session ->
  main raises_for_status default_headers cfg server fs fs_upload target =
    (fst (gather_m3u_files fs target)
     ++ Http (login_request cfg (main_session default_headers))
        :: attempts cfg fs_upload session 0 files,
     Exit 0) /\
  http_calls (fst (main raises_for_status default_headers cfg server fs fs_upload target)) =
    login_request cfg (main_session default_headers)
    :: uploads_due cfg fs_upload session 0 files /\
  (forall k p, nth_error files k = Some p ->
     incl (fst (parse_m3u (fs_upload k) p)) (attempts cfg fs_upload session 0 files)) /\
  (forall k p songs, nth_error files k = Some p ->
     snd (parse_m3u (fs_upload k) p) = Ok songs ->
     In (save_request cfg session (stem p) songs)
        (http_calls (fst (main raises_for_status default_headers cfg server fs fs_upload target)))).
Proof.
  intros V G N L.
  pose proof (@main_uploads raises_for_status default_headers cfg server fs fs_upload
                target files session V G N L) as M.
  rewrite upload_loop_trace in M.
  assert (H : http_calls (fst (main raises_for_status default_headers cfg server fs fs_upload target)) =
              login_request cfg (main_session default_headers)
              :: uploads_due cfg fs_upload session 0 files).
  { now apply main_uploads_http. }
  split; [exact M|]. split; [exact H|]. split.
  - intros k p Hk.
    rewrite <- (upload_loop_trace raises_for_status cfg server fs_upload session files 0 []).
    apply (upload_loop_parses raises_for_status cfg server fs_upload session files 0 [] k Hk).
  - intros k p songs Hk Hp. rewrite H. right.
    apply (uploads_due_in cfg fs_upload session files 0 k Hk Hp).
Qed.

(** C6. A playlist file all of whose lines are blank or comments parses to
    the empty track list, and a run that reaches the upload loop still
    submits it: the playlist-save request with the file's stem as title and
    no songs is sent, and the run exits with code 0. *)
Theorem empty_playlist_still_uploaded raises_for_status default_headers cfg server
    (fs : FS) (fs_upload : nat -> FS) (target : Path) (files : list Path)
    (session : Session) (k : nat) (p : Path) (text : str) :
  validate cfg = Ok tt ->
  snd (gather_m3u_files fs target) = Ok files ->
  snd (login raises_for_status cfg server [] (main_session default_headers)) = Ok session ->
  nth_error files k = Some p ->
  lookup (fs_upload k) p = Some (RegularFile text) ->
  Forall is_blank_or_comment (file_lines text) ->
  snd (parse_m3u (fs_upload k) p) = Ok [] /\
  req_json (save_request cfg session (stem p) []) =
    [(py "title", JString (stem p)); (py "songs", JArray [])] /\
  In (Http (save_request cfg session (stem p) []))
     (fst (main raises_for_status default_headers cfg server fs fs_upload target)) /\
  snd (main raises_for_status default_headers cfg server fs fs_upload target) = Exit 0.
Proof.
  intros V G L Hk Hf Hb.
  assert (N : files <> []) by (intro E; subst; destruct k; discriminate).
  assert (P : snd (parse_m3u (fs_upload k) p) = Ok []).
  { apply read_text_is_file in Hf as [Hf Hr].
    unfold parse_m3u. rewrite Hf, Hr. cbn [negb snd].
    now rewrite fold_parse_line, (no_tracks Hb). }
  split; [exact P|]. split; [reflexivity|]. split.
  - apply in_http_calls.
    rewrite (@main_uploads_http raises_for_status default_headers cfg server fs fs_upload
               target files session V G N L).
    right. apply (uploads_due_in cfg fs_upload session files 0 k Hk P).
  - now rewrite (@main_uploads raises_for_status default_headers cfg server fs fs_upload
                   target files session V G N L).
Qed.

(* ------------------------------------------------------------------ *)
(** ** The theorems on the sample installation *)

(** Three files are discovered.  [a.m3u] is gone when its turn comes, the
    upload of [b.m3u] is answered with status 500, and [c.m3u] is uploaded
    all the same; the run exits with code 0. *)
Lemma upload_failures_sample_witness :
  validate sample_cfg = Ok tt /\
  snd (gather_m3u_files sample_fs [py "music"]) = Ok sample_files /\
  snd (login requests_raise_for_status sample_cfg (sample_server 1 500) []
         (main_session requests_default_headers)) = Ok sample_session /\
  snd (parse_m3u (sample_fs_upload 0) [py "music"; py "a.m3u"]) =
    Raise (FileNotFoundError [py "music"; py "a.m3u"]) /\
  snd (upload_one requests_raise_for_status sample_cfg (sample_server 1 500) sample_fs_upload
         sample_session 1 [login_request sample_cfg (main_session requests_default_headers)]
         [py "music"; py "b.m3u"]) = Raise (HTTPError 500) /\
  main requests_raise_for_status requests_default_headers sample_cfg (sample_server 1 500)
       sample_fs sample_fs_upload [py "music"] =
    (fst (gather_m3u_files sample_fs [py "music"])
     ++ Http (login_request sample_cfg (main_session requests_default_headers))
        :: attempts sample_cfg sample_fs_upload sample_session 0 sample_files,
     Exit 0) /\
  http_calls (fst (main requests_raise_for_status requests_default_headers sample_cfg
                     (sample_server 1 500) sample_fs sample_fs_upload [py "music"])) =
    [login_request sample_cfg (main_session requests_default_headers);
     save_request sample_cfg sample_session (py "b") [py "rock/a.mp3"; py "jazz/b c.flac"];
     save_request sample_cfg sample_session (py "c") [py "x.ogg"]].
Proof.
  do 5 (split; [reflexivity|]).
  pose proof (@upload_failures_do_not_abort requests_raise_for_status requests_default_headers
                sample_cfg (sample_server 1 500) sample_fs sample_fs_upload [py "music"]
                sample_files sample_session
                eq_refl eq_refl ltac:(discriminate) eq_refl) as [M [H _]].
  split; [exact M|]. rewrite H. reflexivity.
Defined.

(** [a.m3u] holds only comments and blank lines and is uploaded empty. *)
Lemma empty_playlist_sample_witness :
  nth_error sample_files 0 = Some [py "music"; py "a.m3u"] /\
  lookup sample_fs [py "music"; py "a.m3u"] = Some (RegularFile sample_comments_only) /\
  Forall is_blank_or_comment (file_lines sample_comments_only) /\
  snd (parse_m3u sample_fs [py "music"; py "a.m3u"]) = Ok [] /\
  In (Http (save_request sample_cfg sample_session (py "a") []))
     (fst (main requests_raise_for_status requests_default_headers sample_cfg
             (sample_server 9 500) sample_fs (fun _ => sample_fs) [py "music"])) /\
  snd (main requests_raise_for_status requests_default_headers sample_cfg
         (sample_server 9 500) sample_fs (fun _ => sample_fs) [py "music"]) = Exit 0.
Proof.
  assert (B : Forall is_blank_or_comment (file_lines sample_comments_only)).
  { repeat constructor; (left; reflexivity) || (right; reflexivity). }
  do 2 (split; [reflexivity|]). split; [exact B|].
  destruct (@empty_playlist_still_uploaded requests_raise_for_status requests_default_headers
              sample_cfg (sample_server 9 500) sample_fs (fun _ => sample_fs) [py "music"]
              sample_files sample_session 0 [py "music"; py "a.m3u"] sample_comments_only
              eq_refl eq_refl eq_refl eq_refl eq_refl B) as [P [_ [I E]]].
  split; [exact P|]. split; [exact I | exact E].
Defined.

(* ------------------------------------------------------------------ *)
(** ** Further properties of the run *)

(** X1. After a valid configuration, a discovery that finds no file ends the
    run with exit code 1 right after the scan: no login, no upload. *)
Theorem no_playlist_found_aborts raises_for_status default_headers cfg server
    (fs : FS) (fs_upload : nat -> FS) (target : Path) :
  validate cfg = Ok tt ->
  snd (gather_m3u_files fs target) = Ok [] ->
  main raises_for_status default_headers cfg server fs fs_upload target =
    (fst (gather_m3u_files fs target), Exit 1) /\
  http_calls (fst (main raises_for_status default_headers cfg server fs fs_upload target)) = [].
Proof.
  intros V G.
  rewrite (@main_no_files raises_for_status default_headers cfg server fs fs_upload target V G).
  split; [reflexivity|]. apply http_calls_fs, gather_only_fs.
Qed.

(** The root of the sample tree holds a directory and no playlist. *)
Lemma no_playlist_sample_witness :
  snd (gather_m3u_files sample_fs []) = Ok [] /\
  main requests_raise_for_status requests_default_headers sample_cfg (sample_server 9 500)
       sample_fs sample_fs_upload [] =
    ([FsIsFile []; FsIsDir []; FsGlob [] (py "*.m3u")], Exit 1).
Proof.
  split; [reflexivity|].
  exact (proj1 (@no_playlist_found_aborts requests_raise_for_status requests_default_headers
                  sample_cfg (sample_server 9 500) sample_fs sample_fs_upload []
                  eq_refl eq_refl)).
Defined.

(** X3. The token of the login reply travels with every upload: when the
    reply is accepted and its JSON object carries a non-empty token, each
    playlist-save request has the header [X-CSRF-Token] with that token;
    when the token is absent or empty, login still succeeds and the uploads
    carry the headers the session started with. *)
Theorem csrf_token_sent_with_uploads raises_for_status default_headers cfg server
    (fs : FS) (fs_upload : nat -> FS) (target : Path) (files : list Path)
    (resp : Response) (csrf : option str) (r : Request) :
  validate cfg = Ok tt ->
  snd (gather_m3u_files fs target) = Ok files -> files <> [] ->
  server [] (login_request cfg (main_session default_headers)) = Responded resp ->
  raises_for_status (status_code resp) = false ->
  body resp = JsonObject csrf ->
  In r (http_calls (fst (main raises_for_status default_headers cfg server fs fs_upload target))) ->
  req_url r = request_url cfg (py "/api/v1/playlist/save") ->
  match csrf with
  | Some (c :: t) => In (py "X-CSRF-Token", c :: t) (req_headers r)
  | _ => req_headers r = headers (main_session default_headers)
  end.
Proof.
  intros V G N S R B Hr Hu.
  set (session := if truthy csrf
                  then headers_update (main_session default_headers)
                         [(py "X-CSRF-Token", match csrf with Some t => t | None => [] end)]
                  else main_session default_headers).
  assert (L : snd (login raises_for_status cfg server [] (main_session default_headers)) = Ok session).
  { unfold login, api_request. fold (login_request cfg (main_session default_headers)).
    rewrite S, R, B. subst session. destruct (truthy csrf); reflexivity. }
  rewrite (@main_uploads_http raises_for_status default_headers cfg server fs fs_upload
             target files session V G N L) in Hr.
  destruct Hr as [<- | Hr]; [exfalso; revert Hu; apply login_save_urls_differ|].
  apply uploads_due_from in Hr as [q [songs [_ ->]]].
  cbn [save_request prepare req_headers]. subst session.
  destruct csrf as [[|c t]|]; cbn [truthy]; try reflexivity.
  apply in_dict_set.
Qed.

(** The sample server hands out [t0k3n]; the upload of [c.m3u] carries it. *)
Lemma csrf_token_sample_witness :
  In (py "X-CSRF-Token", py "t0k3n")
     (req_headers (save_request sample_cfg sample_session (py "c") [py "x.ogg"])).
Proof.
  apply (@csrf_token_sent_with_uploads requests_raise_for_status requests_default_headers
           sample_cfg (sample_server 9 500) sample_fs (fun _ => sample_fs) [py "music"]
           sample_files {| status_code := 200; body := JsonObject (Some (py "t0k3n")) |}
           (Some (py "t0k3n")) (save_request sample_cfg sample_session (py "c") [py "x.ogg"])
           eq_refl eq_refl ltac:(discriminate) eq_refl eq_refl eq_refl).
  - right. right. right. left. reflexivity.
  - reflexivity.
Defined.

(** X4. A regular file named exactly [.m3u] is found by a directory scan,
    yet has no suffix, so the same path given directly is rejected. *)
Theorem dotfile_m3u_scanned_but_rejected (fs : FS) (root : Path) :
  is_dir fs root = true ->
  In (py ".m3u") (scandir fs root) ->
  is_file fs (joinpath root (py ".m3u")) = true ->
  suffix (joinpath root (py ".m3u")) = [] /\
  (exists files, snd (gather_m3u_files fs root) = Ok files /\
                 In (joinpath root (py ".m3u")) files) /\
  snd (gather_m3u_files fs (joinpath root (py ".m3u"))) =
    Raise (ValueError (joinpath root (py ".m3u"))).
Proof.
  intros D S F.
  assert (E : suffix (joinpath root (py ".m3u")) = []).
  { unfold suffix. rewrite name_joinpath. reflexivity. }
  split; [exact E|]. split.
  - eexists. split; [apply (gather_dir _ _ D)|].
    apply gather_dir_members. exists (py ".m3u"). repeat split; auto.
    now exists [].
  - rewrite (gather_file _ _ F), E. reflexivity.
Qed.

Lemma dotfile_m3u_sample_witness :
  snd (gather_m3u_files (Directory [(py ".m3u", RegularFile (py "x.ogg"))]) []) = Ok [[py ".m3u"]] /\
  snd (gather_m3u_files (Directory [(py ".m3u", RegularFile (py "x.ogg"))]) [py ".m3u"]) =
    Raise (ValueError [py ".m3u"]).
Proof.
  split; [reflexivity|].
  exact (proj2 (proj2 (@dotfile_m3u_scanned_but_rejected
                         (Directory [(py ".m3u", RegularFile (py "x.ogg"))]) []
                         eq_refl (or_introl eq_refl) eq_refl))).
Defined.

(* ------------------------------------------------------------------ *)
(** ** More on strings and lines *)

Lemma dropwhile_idem (f : char -> bool) (s : str) :
  dropwhile f (dropwhile f s) = dropwhile f s.
Proof.
  induction s as [|x s IH]; simpl; auto.
  destruct (f x) eqn:E; auto. simpl. now rewrite E.
Qed.

Lemma dropwhile_incl (f : char -> bool) (s : str) (c : char) :
  In c (dropwhile f s) -> In c s.
Proof.
  induction s as [|x s IH]; simpl; auto.
  destruct (f x); auto.
Qed.

Lemma dropwhile_nil_iff (f : char -> bool) (s : str) :
  dropwhile f s = [] <-> forallb f s = true.
Proof.
  induction s as [|x s IH]; simpl; [tauto|].
  destruct (f x); simpl; [exact IH | split; discriminate].
Qed.

Lemma dropwhile_snoc_dropped (f : char -> bool) (s : str) (c : char) :
  f c = true ->
  dropwhile f (s ++ [c]) =
  match dropwhile f s with [] => [] | _ :: _ => dropwhile f s ++ [c] end.
Proof.
  intro Hc. induction s as [|x s IH]; simpl.
  - now rewrite Hc.
  - destruct (f x); auto.
Qed.

Lemma rstrip_where_snoc_dropped (f : char -> bool) (s : str) (c : char) :
  f c = true -> rstrip_where f (s ++ [c]) = rstrip_where f s.
Proof.
  intro Hc. unfold rstrip_where. rewrite rev_app_distr. simpl. now rewrite Hc.
Qed.

Lemma rstrip_where_idem (f : char -> bool) (s : str) :
  rstrip_where f (rstrip_where f s) = rstrip_where f s.
Proof. unfold rstrip_where. now rewrite rev_involutive, dropwhile_idem. Qed.

Lemma rstrip_where_last (f : char -> bool) (s t : str) (c : char) :
  rstrip_where f s = t ++ [c] -> f c = false.
Proof.
  unfold rstrip_where. intro H.
  apply (f_equal (@rev char)) in H.
  rewrite rev_involutive, rev_app_distr in H. simpl in H.
  eapply dropwhile_hd; eauto.
Qed.

Lemma rstrip_where_incl (f : char -> bool) (s : str) (c : char) :
  In c (rstrip_where f s) -> In c s.
Proof.
  unfold rstrip_where. intro H.
  apply in_rev in H. apply dropwhile_incl in H. now apply in_rev.
Qed.

Lemma strip_incl (s : str) (c : char) : In c (strip s) -> In c s.
Proof.
  unfold strip, lstrip_where. intro H.
  apply rstrip_where_incl in H. now apply dropwhile_incl in H.
Qed.

(** [strip] undoes nothing it did: stripping twice is stripping once. *)
Lemma strip_idem (s : str) : strip (strip s) = strip s.
Proof.
  unfold strip, lstrip_where.
  destruct (dropwhile isspace s) as [|c t] eqn:E; [reflexivity|].
  pose proof (dropwhile_hd _ _ E) as Hc.
  rewrite (@rstrip_where_cons isspace c t Hc). simpl. rewrite Hc.
  rewrite <- (@rstrip_where_cons isspace c _ Hc). apply rstrip_where_idem.
Qed.

Lemma strip_snoc_space (s : str) (c : char) :
  isspace c = true -> strip (s ++ [c]) = strip s.
Proof.
  intro Hc. unfold strip, lstrip_where.
  rewrite (@dropwhile_snoc_dropped isspace s c Hc).
  destruct (dropwhile isspace s) as [|d t]; [reflexivity|].
  now apply rstrip_where_snoc_dropped.
Qed.

Lemma first_non_whitespace_snoc_space (s : str) (c : char) :
  isspace c = true -> first_non_whitespace (s ++ [c]) = first_non_whitespace s.
Proof.
  intro Hc. unfold first_non_whitespace.
  rewrite !find_dropwhile, (@dropwhile_snoc_dropped isspace s c Hc).
  destruct (dropwhile isspace s); reflexivity.
Qed.

Lemma is_track_line_snoc_space (s : str) (c : char) :
  isspace c = true -> is_track_line (s ++ [c]) = is_track_line s.
Proof.
  intro Hc. unfold is_track_line.
  now rewrite strip_snoc_space, first_non_whitespace_snoc_space.
Qed.

Lemma first_non_whitespace_cons (c : char) (t : str) :
  isspace c = false -> first_non_whitespace (c :: t) = Some c.
Proof. intro H. unfold first_non_whitespace. simpl. now rewrite H. Qed.

(** What a kept line looks like once trimmed. *)
Lemma track_line_clean (raw : str) :
  is_track_line raw = true ->
  strip (strip raw) = strip raw /\
  (exists c t, strip raw = c :: t /\ isspace c = false /\ c <> char_hash) /\
  (forall t c, strip raw = t ++ [c] -> isspace c = false) /\
  is_track_line (strip raw) = true.
Proof.
  intro H. unfold is_track_line in H. apply andb_true_iff in H as [H1 H2].
  pose proof (strip_first raw) as F.
  assert (C : exists c t, strip raw = c :: t /\ isspace c = false /\ c <> char_hash).
  { destruct (first_non_whitespace raw) as [c|] eqn:E.
    - destruct F as [t Ft]. exists c, t. split; [exact Ft|].
      unfold first_non_whitespace in E. apply find_some in E as [_ E].
      apply negb_true_iff in E. split; [exact E|].
      apply negb_true_iff in H2. now apply N.eqb_neq.
    - rewrite F in H1. discriminate. }
  split; [apply strip_idem|]. split; [exact C|]. split.
  - intros t c E. unfold strip in E. eapply rstrip_where_last; eauto.
  - destruct C as [c [t [E [Hs Hh]]]].
    unfold is_track_line. rewrite strip_idem, E.
    rewrite (@first_non_whitespace_cons c t Hs). simpl.
    apply negb_true_iff. now apply N.eqb_neq.
Qed.

Lemma is_line_char_spec (c : char) :
  is_line_char c = true <-> c <> char_LF /\ c <> char_CR.
Proof.
  unfold is_line_char. rewrite andb_true_iff, !negb_true_iff, !N.eqb_neq. tauto.
Qed.

(** Reading on over characters that end no line. *)
Lemma iter_lines_body (body : str) : forall cur rest,
  forallb is_line_char body = true ->
  iter_lines cur (body ++ rest) = iter_lines (rev body ++ cur) rest.
Proof.
  induction body as [|c body IH]; intros cur rest H; [reflexivity|].
  simpl in H. apply andb_true_iff in H as [Hc Hb].
  apply is_line_char_spec in Hc as [H1 H2].
  apply N.eqb_neq in H1, H2.
  cbn [app iter_lines]. rewrite H1, H2, IH by assumption.
  cbn [rev]. now rewrite <- app_assoc.
Qed.

(** Each line a file yields is made of characters that end no line, with at
    most ["\n"] at its very end. *)
Lemma iter_lines_shape (text : str) : forall cur,
  forallb is_line_char cur = true ->
  Forall (fun l => exists body, forallb is_line_char body = true /\
                                (l = body ++ [char_LF] \/ l = body))
         (iter_lines cur text).
Proof.
  assert (R : forall cur, forallb is_line_char cur = true ->
                          forallb is_line_char (rev cur) = true).
  { intros cur H. apply forallb_forall. intros x Hx. apply in_rev in Hx.
    revert x Hx. now apply forallb_forall. }
  induction text as [|c rest IH]; intros cur Hcur.
  - simpl. destruct cur as [|x cur]; constructor; [|constructor].
    exists (rev (x :: cur)). split; [now apply R | now right].
  - cbn [iter_lines].
    assert (L : exists body, forallb is_line_char body = true /\
                 (rev (char_LF :: cur) = body ++ [char_LF] \/ rev (char_LF :: cur) = body)).
    { exists (rev cur). split; [now apply R | now left]. }
    destruct (N.eqb c char_LF) eqn:E1.
    { constructor; [exact L | now apply IH]. }
    destruct (N.eqb c char_CR) eqn:E2.
    + destruct rest as [|d rest'].
      * constructor; [exact L | now apply IH].
      * destruct (N.eqb d char_LF) eqn:E3.
        -- constructor; [exact L|].
           specialize (IH [] eq_refl). cbn [iter_lines] in IH. rewrite E3 in IH.
           now inversion IH.
        -- constructor; [exact L | now apply IH].
    + apply IH. simpl. rewrite Hcur, andb_true_r.
      unfold is_line_char. now rewrite E1, E2.
Qed.

Lemma parse_ok_inv (fs : FS) (p : Path) (songs : list str) :
  snd (parse_m3u fs p) = Ok songs ->
  exists text, lookup fs p = Some (RegularFile text) /\ songs = spec_tracks text.
Proof.
  unfold parse_m3u, is_file, read_text.
  destruct (lookup fs p) as [[text|es|]|]; simpl; try discriminate.
  intro H. inversion H. exists text. split; [reflexivity|].
  unfold spec_tracks. now rewrite fold_parse_line.
Qed.

(** Every track [parse_m3u] returns is trimmed, starts with a character that
    is neither whitespace nor [#], and holds no line ending. *)
Lemma parsed_song_clean (fs : FS) (p : Path) (songs : list str) (s : str) :
  snd (parse_m3u fs p) = Ok songs -> In s songs ->
  strip s = s /\
  (exists c t, s = c :: t /\ isspace c = false /\ c <> char_hash) /\
  (forall t c, s = t ++ [c] -> isspace c = false) /\
  forallb is_line_char s = true /\
  is_track_line s = true.
Proof.
  intros P Hin. apply parse_ok_inv in P as [text [_ ->]].
  unfold spec_tracks in Hin. apply in_map_iff in Hin as [raw [<- Hr]].
  apply filter_In in Hr as [Hr Ht].
  destruct (@track_line_clean raw Ht) as [A [B [C D]]].
  repeat split; auto.
  pose proof (iter_lines_shape text [] eq_refl) as Sh.
  rewrite Forall_forall in Sh. destruct (Sh raw Hr) as [body [Hb Hraw]].
  apply forallb_forall. intros x Hx.
  assert (Hx' : In x (strip body)).
  { destruct Hraw as [-> | ->]; [|exact Hx].
    now rewrite strip_snoc_space in Hx. }
  apply strip_incl in Hx'. exact (proj1 (forallb_forall is_line_char body) Hb x Hx').
Qed.

Lemma write_lines_cr_head (ls : list str) :
  Forall (fun l => forallb is_line_char l = true) ls ->
  match write_lines [char_CR] ls with
  | d :: _ => N.eqb d char_LF = false
  | [] => True
  end.
Proof.
  intros [|l ls' Hl _]; simpl; auto.
  destruct l as [|c l]; simpl; [reflexivity|].
  simpl in Hl. apply andb_true_iff in Hl as [Hc _].
  apply is_line_char_spec in Hc as [Hc _]. now apply N.eqb_neq.
Qed.

(** A file written line by line reads back as those lines, each ended by
    ["\n"], whichever of the three line endings was used. *)
Lemma file_lines_write_lines (sep : str) (ls : list str) :
  is_terminator sep ->
  Forall (fun l => forallb is_line_char l = true) ls ->
  file_lines (write_lines sep ls) = map (fun l => l ++ [char_LF]) ls.
Proof.
  intros T H. unfold file_lines. induction H as [|l ls Hl Hls IH]; [reflexivity|].
  cbn [write_lines flat_map map]. fold (write_lines sep ls).
  rewrite <- app_assoc, (iter_lines_body l [] _ Hl), app_nil_r.
  assert (E : rev (char_LF :: rev l) = l ++ [char_LF])
    by (simpl; now rewrite rev_involutive).
  destruct T as [-> | [-> | ->]].
  - cbn [app iter_lines]. rewrite N.eqb_refl, E, IH. reflexivity.
  - cbn [app iter_lines].
    change (N.eqb char_CR char_LF) with false.
    change (N.eqb char_CR char_CR) with true.
    cbn iota. rewrite N.eqb_refl, E, IH. reflexivity.
  - cbn [app iter_lines].
    change (N.eqb char_CR char_LF) with false.
    change (N.eqb char_CR char_CR) with true.
    cbn iota. pose proof (write_lines_cr_head Hls) as Hd.
    destruct (write_lines [char_CR] ls) as [|d rest] eqn:W.
    + rewrite E. rewrite <- IH. reflexivity.
    + rewrite Hd, E, IH. reflexivity.
Qed.

Lemma tracks_of_terminated (ls : list str) :
  map strip (filter is_track_line (map (fun l => l ++ [char_LF]) ls)) =
  map strip (filter is_track_line ls).
Proof.
  induction ls as [|l ls IH]; [reflexivity|].
  cbn [map filter]. rewrite (@is_track_line_snoc_space l char_LF eq_refl).
  destruct (is_track_line l); cbn [map]; rewrite IH; [|reflexivity].
  now rewrite (@strip_snoc_space l char_LF eq_refl).
Qed.

Lemma tracks_of_clean (songs : list str) :
  (forall s, In s songs -> strip s = s /\ is_track_line s = true) ->
  map strip (filter is_track_line songs) = songs.
Proof.
  induction songs as [|s songs IH]; intro H; [reflexivity|].
  destruct (H s (or_introl eq_refl)) as [Hs Ht].
  cbn [filter]. rewrite Ht. cbn [map]. rewrite Hs, IH; [reflexivity|].
  intros x Hx. apply H. now right.
Qed.

(* ------------------------------------------------------------------ *)
(** ** The parser: errors, output, round trip *)

(** X6. Every track [parse_m3u] returns is non-empty and already trimmed:
    it neither starts nor ends with whitespace, does not start with [#],
    and contains no line ending. *)
Theorem parse_m3u_tracks_are_trimmed (fs : FS) (p : Path) (songs : list str) (s : str) :
  snd (parse_m3u fs p) = Ok songs -> In s songs ->
  s <> [] /\
  strip s = s /\
  isspace (hd 0%N s) = false /\
  isspace (last s 0%N) = false /\
  startswith (py "#") s = false /\
  forallb is_line_char s = true.
Proof.
  intros P Hin.
  destruct (@parsed_song_clean fs p songs s P Hin) as [A [[c [t [E [Hs Hh]]]] [L [N _]]]].
  split; [rewrite E; discriminate|]. split; [exact A|].
  split; [rewrite E; exact Hs|]. split.
  - destruct (exists_last (l := s)) as [t' [c' E']]; [rewrite E; discriminate|].
    rewrite E', last_last. eapply L; eauto.
  - split; [|exact N]. rewrite E. change (py "#") with [char_hash].
    cbn [startswith]. rewrite andb_true_r. apply N.eqb_neq. congruence.
Qed.

Lemma parse_m3u_tracks_sample_witness :
  snd (parse_m3u sample_fs [py "music"; py "b.m3u"]) =
    Ok [py "rock/a.mp3"; py "jazz/b c.flac"] /\
  strip (py "jazz/b c.flac") = py "jazz/b c.flac" /\
  forallb is_line_char (py "jazz/b c.flac") = true.
Proof.
  split; [reflexivity|].
  destruct (@parse_m3u_tracks_are_trimmed sample_fs [py "music"; py "b.m3u"]
              [py "rock/a.mp3"; py "jazz/b c.flac"] (py "jazz/b c.flac")
              eq_refl (or_intror (or_introl eq_refl))) as [_ [A [_ [_ [_ B]]]]].
  split; [exact A | exact B].
Defined.

(** X7. The line ending does not matter: a file made of the lines [ls], each
    ended by ["\n"], ["\r\n"] or a lone ["\r"], parses to the kept lines of
    [ls], trimmed, in order. *)
Theorem parse_m3u_any_line_ending (fs : FS) (p : Path) (sep : str) (ls : list str) :
  is_terminator sep ->
  Forall (fun l => forallb is_line_char l = true) ls ->
  lookup fs p = Some (RegularFile (write_lines sep ls)) ->
  snd (parse_m3u fs p) = Ok (map strip (filter is_track_line ls)).
Proof.
  intros T H L. apply read_text_is_file in L as [Hf Hr].
  unfold parse_m3u. rewrite Hf, Hr. cbn [negb snd].
  rewrite fold_parse_line, (@file_lines_write_lines sep ls T H). cbn [app].
  now rewrite tracks_of_terminated.
Qed.

(** An old-style file with lone ["\r"] line endings. *)
Lemma parse_m3u_line_ending_sample_witness :
  snd (parse_m3u
         (Directory [(py "mac.m3u",
                      RegularFile (write_lines [char_CR]
                                     [py "#EXTM3U"; py " a.mp3 "; []; py "b.mp3"]))])
         [py "mac.m3u"]) = Ok [py "a.mp3"; py "b.mp3"].
Proof.
  apply (@parse_m3u_any_line_ending
           (Directory [(py "mac.m3u",
                        RegularFile (write_lines [char_CR]
                                       [py "#EXTM3U"; py " a.mp3 "; []; py "b.mp3"]))])
           [py "mac.m3u"] [char_CR] [py "#EXTM3U"; py " a.mp3 "; []; py "b.mp3"]).
  - right. right. reflexivity.
  - repeat constructor.
  - reflexivity.
Defined.

(** X8. Parsing is a round trip on its own output: write the tracks
    [parse_m3u] returned one per line, with any of the three line endings,
    and parsing that file returns the same tracks. *)
Theorem parse_m3u_round_trip (fs fs' : FS) (p p' : Path) (songs : list str) (sep : str) :
  snd (parse_m3u fs p) = Ok songs ->
  is_terminator sep ->
  lookup fs' p' = Some (RegularFile (write_lines sep songs)) ->
  snd (parse_m3u fs' p') = Ok songs.
Proof.
  intros P T L.
  assert (C : forall s, In s songs ->
                strip s = s /\ forallb is_line_char s = true /\ is_track_line s = true).
  { intros s Hs. destruct (@parsed_song_clean fs p songs s P Hs) as [A [_ [_ [B D]]]]. auto. }
  apply read_text_is_file in L as [Hf Hr].
  unfold parse_m3u. rewrite Hf, Hr. cbn [negb snd].
  rewrite fold_parse_line, file_lines_write_lines; [|exact T|].
  - cbn [app]. rewrite tracks_of_terminated. f_equal.
    apply tracks_of_clean. intros s Hs. destruct (C s Hs) as [A [_ D]]. auto.
  - apply Forall_forall. intros s Hs. apply (C s Hs).
Qed.

Lemma parse_m3u_round_trip_sample_witness :
  snd (parse_m3u
         (Directory [(py "copy.m3u",
                      RegularFile (write_lines [char_CR; char_LF]
                                     [py "rock/a.mp3"; py "jazz/b c.flac"]))])
         [py "copy.m3u"]) = Ok [py "rock/a.mp3"; py "jazz/b c.flac"].
Proof.
  apply (@parse_m3u_round_trip sample_fs
           (Directory [(py "copy.m3u",
                        RegularFile (write_lines [char_CR; char_LF]
                                       [py "rock/a.mp3"; py "jazz/b c.flac"]))])
           [py "music"; py "b.m3u"] [py "copy.m3u"]
           [py "rock/a.mp3"; py "jazz/b c.flac"] [char_CR; char_LF]).
  - reflexivity.
  - right. left. reflexivity.
  - reflexivity.
Defined.

(* ------------------------------------------------------------------ *)
(** ** The file locator: order, duplicates, composition *)






(* ------------------------------------------------------------------ *)
(** ** Settings and URLs: the environment *)

Lemma forallb_rev (f : char -> bool) (s : str) : forallb f (rev s) = forallb f s.
Proof.
  induction s as [|x s IH]; [reflexivity|].
  simpl. rewrite forallb_app, IH. simpl. rewrite andb_true_r. apply andb_comm.
Qed.

Lemma rstrip_nil_iff (chars s : str) :
  rstrip chars s = [] <-> forallb (char_in chars) s = true.
Proof.
  unfold rstrip, rstrip_where. rewrite <- (forallb_rev _ s), <- dropwhile_nil_iff.
  split; intro H.
  - apply (f_equal (@rev char)) in H. now rewrite rev_involutive in H.
  - now rewrite H.
Qed.

Lemma not_all_iff_exists (f : char -> bool) (s : str) :
  forallb f s <> true <-> exists c, In c s /\ f c = false.
Proof.
  induction s as [|x s IH]; simpl.
  - split; [intro H; now contradiction H | intros [c [[] _]]].
  - destruct (f x) eqn:E; simpl.
    + rewrite IH. split; intros [c [Hc Hf]]; exists c.
      * split; [now right | exact Hf].
      * destruct Hc as [<- | Hc]; [rewrite E in Hf; discriminate | auto].
    + split; [intros _; exists x; auto | discriminate].
Qed.

Lemma getenv_nonempty (env : Environ) (key default : str) :
  default <> [] ->
  (getenv env key default <> [] <-> env key <> Some []).
Proof.
  intro D. unfold getenv. destruct (env key) as [v|].
  - split; intros H E; apply H.
    + now inversion E.
    + now rewrite E.
  - split; [discriminate | intros _; exact D].
Qed.

Lemma rstrip_slashes (b : str) (n : nat) :
  rstrip (py "/") (b ++ slashes n) = rstrip (py "/") b.
Proof.
  unfold rstrip, slashes. induction n as [|n IH]; [now rewrite app_nil_r|].
  cbn [repeat]. rewrite repeat_cons, app_assoc.
  rewrite rstrip_where_snoc_dropped; [exact IH | reflexivity].
Qed.

Lemma lstrip_slashes (e : str) (n : nat) :
  lstrip (py "/") (slashes n ++ e) = lstrip (py "/") e.
Proof. induction n as [|n IH]; [reflexivity | exact IH]. Qed.

(** X12. The configuration error names exactly the settings that are empty,
    in the order [BASE_URL], [USERNAME], [PASSWORD]. *)
Theorem validate_names_the_empty_settings (cls : Settings) (missing : list str) :
  validate cls = Raise (RuntimeError missing) ->
  missing =
    match BASE_URL cls with [] => [py "BASE_URL"] | _ :: _ => [] end
    ++ match USERNAME cls with [] => [py "USERNAME"] | _ :: _ => [] end
    ++ match PASSWORD cls with [] => [py "PASSWORD"] | _ :: _ => [] end.
Proof.
  unfold validate, _REQUIRED_KEYS. cbn [filter].
  change (getattr cls (py "BASE_URL")) with (Some (BASE_URL cls)).
  change (getattr cls (py "USERNAME")) with (Some (USERNAME cls)).
  change (getattr cls (py "PASSWORD")) with (Some (PASSWORD cls)).
  destruct (BASE_URL cls), (USERNAME cls), (PASSWORD cls); simpl;
    intro H; inversion H; reflexivity.
Qed.

(** The password is set to the empty string, the base URL to a slash. *)
Lemma validate_names_sample_witness :
  validate (load_settings (fun key =>
              if str_eqb key (py "MS_PASSWORD") then Some []
              else if str_eqb key (py "MS_BASE_URL") then Some (py "/")
              else None)) =
  Raise (RuntimeError [py "BASE_URL"; py "PASSWORD"]).
Proof.
  rewrite (@validate_names_the_empty_settings
             (load_settings (fun key =>
                if str_eqb key (py "MS_PASSWORD") then Some []
                else if str_eqb key (py "MS_BASE_URL") then Some (py "/")
                else None))
             [py "BASE_URL"; py "PASSWORD"] eq_refl).
  reflexivity.
Defined.

(** X13. A variable that is not set never makes the configuration invalid:
    the settings loaded from the environment pass [validate] unless
    [MS_USERNAME] or [MS_PASSWORD] is set to the empty string, or
    [MS_BASE_URL] is set to nothing but slashes. *)
Theorem validate_environment (env : Environ) :
  validate (load_settings env) = Ok tt <->
  (forall v, env (py "MS_BASE_URL") = Some v -> exists c, In c v /\ c <> 47%N) /\
  env (py "MS_USERNAME") <> Some [] /\
  env (py "MS_PASSWORD") <> Some [].
Proof.
  rewrite validate_ok_iff. unfold load_settings. cbn [BASE_URL USERNAME PASSWORD].
  rewrite !getenv_nonempty by discriminate.
  assert (B : rstrip (py "/") (getenv env (py "MS_BASE_URL") (py "http://127.0.0.1:3000")) <> [] <->
              (forall v, env (py "MS_BASE_URL") = Some v -> exists c, In c v /\ c <> 47%N)).
  { unfold getenv. destruct (env (py "MS_BASE_URL")) as [v|].
    - rewrite rstrip_nil_iff, not_all_iff_exists. split.
      + intros [c [Hc Hf]] v' E. inversion E; subst v'. exists c. split; [exact Hc|].
        intros ->. discriminate.
      + intro H. destruct (H v eq_refl) as [c [Hc Hn]]. exists c. split; [exact Hc|].
        unfold char_in. simpl. rewrite orb_false_r. now apply N.eqb_neq.
    - split; [intros _ v E; discriminate | intros _; discriminate]. }
  rewrite B. tauto.
Qed.

(** X14. Extra slashes change nothing: any number of slashes after the
    configured base URL and before the endpoint give the same request URL. *)
Theorem request_url_ignores_extra_slashes (env env' : Environ) (b endpoint : str) (n m : nat) :
  env (py "MS_BASE_URL") = Some b ->
  env' (py "MS_BASE_URL") = Some (b ++ slashes n) ->
  request_url (load_settings env') (slashes m ++ endpoint) =
  request_url (load_settings env) endpoint.
Proof.
  intros E E'. unfold request_url, load_settings, getenv. cbn [BASE_URL].
  now rewrite E, E', rstrip_slashes, lstrip_slashes.
Qed.

Lemma request_url_slashes_sample_witness :
  request_url
    (load_settings (fun key =>
       if str_eqb key (py "MS_BASE_URL") then Some (py "http://host:3000///") else None))
    (py "//api/v1/playlist/save") =
  py "http://host:3000/api/v1/playlist/save".
Proof.
  exact (@request_url_ignores_extra_slashes
           (fun key => if str_eqb key (py "MS_BASE_URL")
                       then Some (py "http://host:3000") else None)
           (fun key => if str_eqb key (py "MS_BASE_URL")
                       then Some (py "http://host:3000///") else None)
           (py "http://host:3000") (py "api/v1/playlist/save") 3 2 eq_refl eq_refl).
Defined.

(* ------------------------------------------------------------------ *)
(** ** The run: requests, replies, files *)

Lemma in_dict_set_other (d : list (str * str)) (k v k' v' : str) :
  In (k, v) d -> str_eqb k' k = false -> In (k, v) (dict_set d k' v').
Proof.
  intros H N. induction d as [|[a b] d IH]; [contradiction|].
  simpl. destruct (str_eqb k' a) eqn:E.
  - destruct H as [H | H]; [|now right].
    inversion H; subst. rewrite E in N. discriminate.
  - destruct H as [H | H]; [now left | right; auto].
Qed.

Lemma main_session_json_headers (default_headers : list (str * str)) :
  In (py "Accept", py "application/json") (headers (main_session default_headers)) /\
  In (py "Content-Type", py "application/json") (headers (main_session default_headers)).
Proof.
  unfold main_session, headers_update. cbn [headers fold_left fst snd]. split.
  - apply in_dict_set_other; [apply in_dict_set | reflexivity].
  - apply in_dict_set.
Qed.

Lemma login_ok_session raises_for_status cfg server sent session session' :
  snd (login raises_for_status cfg server sent session) = Ok session' ->
  session' = session \/
  exists t, session' = headers_update session [(py "X-CSRF-Token", t)].
Proof.
  unfold login.
  destruct (api_request raises_for_status cfg server sent session _ _ _) as [evs [resp|e]];
    [|discriminate].
  destruct (body resp) as [|csrf|]; try discriminate.
  destruct (truthy csrf); simpl; intro H; inversion H; eauto.
Qed.

Lemma login_agrees raises_for_status cfg (server1 server2 : Server) sent session :
  server1 sent (login_request cfg session) = server2 sent (login_request cfg session) ->
  login raises_for_status cfg server1 sent session =
  login raises_for_status cfg server2 sent session.
Proof.
  unfold login, api_request, login_request. intro H. now rewrite H.
Qed.

Lemma gather_never_opens (fs : FS) (root p : Path) :
  ~ In (FsOpen p) (fst (gather_m3u_files fs root)).
Proof.
  unfold gather_m3u_files.
  destruct (is_file fs root).
  - destruct (negb _); simpl; intuition discriminate.
  - destruct (negb (is_dir fs root)); simpl; [intuition discriminate|].
    intros [H | [H | [H | H]]]; try discriminate.
    apply in_map_iff in H as [q [E _]]. discriminate.
Qed.

Lemma attempts_open cfg fs_upload session files : forall i p,
  In (FsOpen p) (attempts cfg fs_upload session i files) -> In p files.
Proof.
  induction files as [|q rest IH]; intros i p H; [contradiction|].
  cbn [attempts] in H. apply in_app_or in H as [H | H].
  - left. unfold parse_m3u in H.
    destruct (negb (is_file (fs_upload i) q)); simpl in H.
    + destruct H as [H | []]. discriminate.
    + destruct (read_text (fs_upload i) q); simpl in H;
        destruct H as [H | [H | []]]; try discriminate; congruence.
  - apply in_app_or in H as [H | H].
    + destruct (snd (parse_m3u (fs_upload i) q)); simpl in H;
        [destruct H as [H | []]; discriminate | contradiction].
    + right. eapply IH; eauto.
Qed.

(** X17. A run opens no file it did not discover, and none before it is
    logged in: whenever a file is opened, the configuration was valid, the
    file is one of those discovery returned, and login had succeeded. *)
Theorem only_discovered_files_are_opened raises_for_status default_headers cfg server
    (fs : FS) (fs_upload : nat -> FS) (target p : Path) :
  In (FsOpen p) (fst (main raises_for_status default_headers cfg server fs fs_upload target)) ->
  validate cfg = Ok tt /\
  exists files session,
    snd (gather_m3u_files fs target) = Ok files /\ In p files /\
    snd (login raises_for_status cfg server [] (main_session default_headers)) = Ok session.
Proof.
  intro H.
  destruct (validate_cases cfg) as [V | [m [_ V]]].
  2:{ rewrite main_config_error in H by congruence. contradiction. }
  split; [exact V|].
  destruct (snd (gather_m3u_files fs target)) as [files|e] eqn:G.
  2:{ rewrite (@main_discovery_error raises_for_status default_headers cfg server fs
                 fs_upload target e V G) in H.
      exfalso. eapply gather_never_opens; eauto. }
  destruct files as [|q rest].
  { rewrite (@main_no_files raises_for_status default_headers cfg server fs
               fs_upload target V G) in H.
    exfalso. eapply gather_never_opens; eauto. }
  destruct (snd (login raises_for_status cfg server [] (main_session default_headers)))
    as [session|e] eqn:L.
  - exists (q :: rest), session. split; [reflexivity|]. split; [|reflexivity].
    rewrite (@main_uploads raises_for_status default_headers cfg server fs fs_upload
               target (q :: rest) session V G ltac:(discriminate) L) in H.
    rewrite upload_loop_trace in H. cbn [fst] in H.
    apply in_app_or in H as [H | H]; [exfalso; eapply gather_never_opens; eauto|].
    destruct H as [H | H]; [discriminate|].
    eapply attempts_open; eauto.
  - rewrite (@main_login_error raises_for_status default_headers cfg server fs fs_upload
               target (q :: rest) e V G ltac:(discriminate) L) in H.
    cbn [fst] in H. apply in_app_or in H as [H | [H | []]];
      [exfalso; eapply gather_never_opens; eauto | discriminate].
Qed.

Lemma opened_files_sample_witness :
  In [py "music"; py "b.m3u"] sample_files /\
  snd (login requests_raise_for_status sample_cfg (sample_server 9 500) []
         (main_session requests_default_headers)) = Ok sample_session.
Proof.
  destruct (@only_discovered_files_are_opened requests_raise_for_status requests_default_headers
              sample_cfg (sample_server 9 500) sample_fs (fun _ => sample_fs)
              [py "music"] [py "music"; py "b.m3u"])
    as [_ [files [session [G [I L]]]]].
  - cbn. do 13 right. left. reflexivity.
  - inversion G; subst files. split; [exact I|].
    rewrite L. f_equal. now inversion L.
Defined.

(* ------------------------------------------------------------------ *)
(** ** Links and refusals: path resolution *)

Lemma go_done_path jump : forall rest node done q n,
  Posix.go (fun _ => None) node done rest = Some (q, n) ->
  q = done ++ rest /\ Posix.go jump node done rest = Some (q, n).
Proof.
  induction rest as [|c rest IH]; intros node done q n H.
  - simpl in *. inversion H; subst. now rewrite app_nil_r.
  - cbn [Posix.go] in *. destruct node as [|es| |]; try discriminate.
    destruct (Posix.entry c es) as [[t|es'|t|]|]; try discriminate;
      apply IH in H as [Hq H]; (split; [rewrite Hq, <- app_assoc; reflexivity | exact H]).
Qed.

(** A walk that met no link goes on from where it arrived. *)
Lemma go_app_nolink jump : forall r1 r2 node done q n,
  Posix.go (fun _ => None) node done r1 = Some (q, n) ->
  Posix.go jump node done (r1 ++ r2) = Posix.go jump n q r2.
Proof.
  induction r1 as [|c r1 IH]; intros r2 node done q n H.
  - simpl in H. now inversion H.
  - cbn [app Posix.go] in *. destruct node as [|es| |]; try discriminate.
    destruct (Posix.entry c es) as [[t|es'|t|]|]; try discriminate; now apply IH.
Qed.

(** The path a walk arrives at is free of links: walking it again from the
    top meets none and arrives at the same node. *)
Lemma walk_real (top : Posix.Node) : forall fuel p q n,
  Posix.walk fuel top p = Some (q, n) ->
  Posix.go (fun _ => None) top [] q = Some (q, n).
Proof.
  induction fuel as [|fuel IHf]; intros p q n H; [discriminate|].
  cbn [Posix.walk] in H.
  assert (G : forall rest node done,
            Posix.go (fun _ => None) top [] done = Some (done, node) ->
            Posix.go (Posix.walk fuel top) node done rest = Some (q, n) ->
            Posix.go (fun _ => None) top [] q = Some (q, n)).
  { induction rest as [|c rest IH]; intros node done Inv W.
    - simpl in W. inversion W; subst. exact Inv.
    - cbn [Posix.go] in W. destruct node as [|es| |]; try discriminate.
      assert (Step : forall child, Posix.entry c es = Some child ->
                match child with Posix.Link _ => False | _ => True end ->
                Posix.go (fun _ => None) top [] (done ++ [c]) = Some (done ++ [c], child)).
      { intros child E NL.
        rewrite (go_app_nolink (fun _ => None) done [c] top [] Inv).
        cbn [Posix.go]. rewrite E. destruct child; try reflexivity. contradiction. }
      destruct (Posix.entry c es) as [[t|es'|t|]|] eqn:E; try discriminate.
      + eapply IH; [apply Step; [reflexivity | exact I] | exact W].
      + eapply IH; [apply Step; [reflexivity | exact I] | exact W].
      + eapply IHf; eauto.
      + eapply IH; [apply Step; [reflexivity | exact I] | exact W]. }
  eapply G; [|exact H]. reflexivity.
Qed.

(** Resolving a resolved path changes nothing. *)
Lemma locate_real (fs : Posix.FS) (p q : Path) (n : Posix.Node) :
  Posix.locate fs p = Some (q, n) -> Posix.locate fs q = Some (q, n).
Proof.
  unfold Posix.locate. intro H. apply walk_real in H.
  cbn [Posix.walk].
  now destruct (go_done_path (Posix.walk Posix.MAXSYMLINKS (Posix.tree fs)) _ _ _ H).
Qed.

(** In a directory at its real path, an entry that is no link is found at
    the path of that entry. *)
Lemma locate_child (fs : Posix.FS) (root : Path) (es : list (str * Posix.Node))
    (nm : str) (child : Posix.Node) :
  Posix.locate fs root = Some (root, Posix.Dir es) ->
  Posix.entry nm es = Some child ->
  match child with Posix.Link _ => False | _ => True end ->
  Posix.locate fs (joinpath root nm) = Some (joinpath root nm, child).
Proof.
  unfold Posix.locate, joinpath. intros H E NL. apply walk_real in H.
  cbn [Posix.walk]. rewrite (go_app_nolink _ root [nm] _ _ H).
  cbn [Posix.go]. rewrite E. destruct child; try reflexivity. contradiction.
Qed.

(* ------------------------------------------------------------------ *)
(** ** A plain tree is a tree without links where nothing is refused *)

Lemma entry_plain (k : str) (es : list (str * Node)) :
  Posix.entry k (map (fun kc => match kc with (k', c) => (k', plain c) end) es) =
  option_map plain (assoc k es).
Proof.
  induction es as [|[k' c] es IH]; simpl; auto.
  destruct (str_eqb k k'); auto.
Qed.

Lemma go_plain jump : forall rest n done,
  Posix.go jump (plain n) done rest =
  option_map (fun n' => (done ++ rest, plain n')) (lookup n rest).
Proof.
  induction rest as [|c rest IH]; intros n done.
  - simpl. now rewrite app_nil_r.
  - destruct n as [text|es|]; try reflexivity.
    cbn [plain Posix.go lookup]. rewrite entry_plain.
    destruct (assoc c es) as [child|]; [|reflexivity].
    cbn [option_map].
    assert (E : Posix.go jump (plain child) (done ++ [c]) rest =
                option_map (fun n' => (done ++ c :: rest, plain n')) (lookup child rest)).
    { rewrite IH. now rewrite <- app_assoc. }
    destruct child; exact E.
Qed.

Lemma locate_plain (fs : Node) (p : Path) :
  Posix.locate (plain_fs fs) p = option_map (fun n => (p, plain n)) (lookup fs p).
Proof. unfold Posix.locate. cbn [Posix.walk plain_fs Posix.tree]. apply go_plain. Qed.

Lemma is_file_plain (fs : Node) (p : Path) :
  Posix.is_file (plain_fs fs) p = Ok (is_file fs p).
Proof.
  unfold Posix.is_file, is_file. cbn [plain_fs Posix.stat_error]. rewrite locate_plain.
  destruct (lookup fs p) as [[]|]; reflexivity.
Qed.

Lemma is_dir_plain (fs : Node) (p : Path) :
  Posix.is_dir (plain_fs fs) p = Ok (is_dir fs p).
Proof.
  unfold Posix.is_dir, is_dir. cbn [plain_fs Posix.stat_error]. rewrite locate_plain.
  destruct (lookup fs p) as [[]|]; reflexivity.
Qed.

Lemma resolve_plain (fs : Node) (p : Path) : Posix.resolve (plain_fs fs) p = p.
Proof.
  unfold Posix.resolve. rewrite locate_plain. destruct (lookup fs p); reflexivity.
Qed.

Lemma scandir_plain (fs : Node) (p : Path) :
  Posix.scandir (plain_fs fs) p = scandir fs p.
Proof.
  unfold Posix.scandir, scandir. cbn [plain_fs Posix.scandir_denied]. rewrite locate_plain.
  destruct (lookup fs p) as [[text|es|]|]; try reflexivity.
  cbn [option_map plain]. rewrite map_map. apply map_ext. now intros [k c].
Qed.

Lemma parse_plain (fs : Node) (p : Path) :
  Posix.parse_m3u (plain_fs fs) p = parse_m3u fs p.
Proof.
  unfold Posix.parse_m3u, parse_m3u, Posix.read_text, read_text.
  rewrite is_file_plain. unfold is_file. cbn [plain_fs Posix.open_error].
  rewrite locate_plain. destruct (lookup fs p) as [[]|]; reflexivity.
Qed.

Lemma select_files_plain (fs : Node) (found : list Path) :
  Posix.select_files (plain_fs fs) found =
  (map FsIsFile found, Ok (filter (is_file fs) found)).
Proof.
  induction found as [|p found IH]; [reflexivity|].
  cbn [Posix.select_files]. rewrite is_file_plain, IH, resolve_plain.
  cbn [map filter]. destruct (is_file fs p); reflexivity.
Qed.

Lemma gather_plain (fs : Node) (root : Path) :
  Posix.gather_m3u_files (plain_fs fs) root = gather_m3u_files fs root.
Proof.
  unfold Posix.gather_m3u_files, gather_m3u_files.
  rewrite is_file_plain. destruct (is_file fs root).
  - rewrite resolve_plain. reflexivity.
  - rewrite is_dir_plain. destruct (is_dir fs root); [|reflexivity].
    cbn [negb]. unfold Posix.glob, glob. rewrite scandir_plain, select_files_plain.
    now rewrite map_resolve.
Qed.

Lemma upload_loop_plain raises_for_status cfg server (fs_upload : nat -> Node) session files :
  forall i sent,
    Posix.upload_loop raises_for_status cfg server (fun j => plain_fs (fs_upload j))
      session i sent files =
    upload_loop raises_for_status cfg server fs_upload session i sent files.
Proof.
  induction files as [|p rest IH]; intros i sent; [reflexivity|].
  cbn [Posix.upload_loop upload_loop]. unfold Posix.upload_one, upload_one.
  rewrite parse_plain.
  destruct (parse_m3u (fs_upload i) p) as [ev1 [songs|e]].
  - destruct (api_request raises_for_status cfg server sent session _ _ _) as [ev2 [resp|e]];
      now rewrite IH.
  - now rewrite IH.
Qed.

(** On a plain tree, with a path on the command line, the two embeddings of
    [main] are the same function. *)
Lemma posix_main_plain raises_for_status default_headers cfg server
    (fs : Node) (fs_upload : nat -> Node) (target : Path) :
  Posix.main raises_for_status default_headers cfg server
    (plain_fs fs) (fun i => plain_fs (fs_upload i)) (Posix.CliPath target) =
  main raises_for_status default_headers cfg server fs fs_upload target.
Proof.
  unfold Posix.main, main. rewrite gather_plain.
  destruct (validate cfg) as [u|e]; [|reflexivity].
  destruct (gather_m3u_files fs target) as [ev1 [[|p rest]|e]]; try reflexivity.
  destruct (login raises_for_status cfg server [] (main_session default_headers))
    as [ev2 [session|e]]; [|reflexivity].
  now rewrite upload_loop_plain.
Qed.

(* ------------------------------------------------------------------ *)
(** ** The extension, whatever the case of its letters *)

Lemma suffix_of_dotted (p : Path) (pre ext : str) :
  name p = pre ++ char_dot :: ext -> pre <> [] -> ext <> [] ->
  (forall x, In x ext -> x <> char_dot) ->
  suffix p = char_dot :: ext.
Proof.
  intros E N X D. unfold suffix, has_suffix. rewrite E.
  assert (R : rfind char_dot (pre ++ char_dot :: ext) = len pre).
  { unfold rfind. rewrite rfind_from_last; [lia | lia | exact D]. }
  rewrite R.
  assert (L : (0 < len pre)%Z) by (destruct pre; [contradiction | unfold len; simpl; lia]).
  assert (L' : (len pre < len (pre ++ char_dot :: ext) - 1)%Z).
  { unfold len. rewrite length_app. destruct ext; [contradiction | simpl; lia]. }
  apply Z.ltb_lt in L, L'. rewrite L, L'. simpl.
  unfold slice_from, len. rewrite Nat2Z.id.
  rewrite skipn_app, skipn_all, Nat.sub_diag. reflexivity.
Qed.

Lemma lower_char_plain (c y : char) :
  lower_char c = y -> (y < 97 \/ 122 < y)%N -> c = y.
Proof.
  unfold lower_char. destruct ((65 <=? c) && (c <=? 90))%N eqn:E; [|auto].
  apply andb_true_iff in E as [E1 E2]. apply N.leb_le in E1, E2. lia.
Qed.

Lemma lower_char_letter (c y : char) :
  lower_char c = y -> (97 <= y <= 122)%N -> c = y \/ c = (y - 32)%N.
Proof.
  unfold lower_char. destruct ((65 <=? c) && (c <=? 90))%N eqn:E; [|auto].
  intros H _. right. lia.
Qed.

(** [suffix.lower() == ".m3u"] says that the name ends in the extension,
    letters in either case, with something before the dot. *)
Lemma extension_ci (p : Path) :
  str_eqb (lower (suffix p)) (py ".m3u") = has_playlist_extension (name p).
Proof.
  destruct (has_playlist_extension (name p)) eqn:H.
  - apply str_eqb_eq. unfold has_playlist_extension in H.
    destruct (rev (name p)) as [|c [|b [|a [|d [|x r]]]]] eqn:R; try discriminate.
    apply (f_equal (@rev char)) in R. rewrite rev_involutive in R.
    cbn [rev] in R. rewrite <- !app_assoc in R. cbn [app] in R.
    apply andb_true_iff in H as [H Hc]. apply andb_true_iff in H as [H Hb].
    apply andb_true_iff in H as [Hd Ha].
    apply N.eqb_eq in Hd, Hb. subst d b.
    assert (Na : a <> char_dot)
      by (apply orb_true_iff in Ha as [Ha | Ha]; apply N.eqb_eq in Ha; subst; discriminate).
    assert (Nc : c <> char_dot)
      by (apply orb_true_iff in Hc as [Hc | Hc]; apply N.eqb_eq in Hc; subst; discriminate).
    assert (R' : name p = (rev r ++ [x]) ++ char_dot :: [a; 51%N; c])
      by (rewrite R, <- app_assoc; reflexivity).
    rewrite (@suffix_of_dotted p (rev r ++ [x]) [a; 51%N; c] R').
    + apply orb_true_iff in Ha as [Ha | Ha]; apply orb_true_iff in Hc as [Hc | Hc];
        apply N.eqb_eq in Ha, Hc; subst; reflexivity.
    + intro E. apply app_eq_nil in E as [_ E]. discriminate.
    + discriminate.
    + intros y [<- | [<- | [<- | []]]]; auto. discriminate.
  - apply str_eqb_neq. intro E.
    assert (S : suffix p <> []) by (intro S; rewrite S in E; discriminate).
    unfold suffix in *. destruct (has_suffix (name p)) eqn:HS; [|now apply S].
    unfold has_suffix in HS. apply andb_true_iff in HS as [H1 H2].
    apply Z.ltb_lt in H1, H2. unfold slice_from, len in *.
    set (k := Z.to_nat (rfind char_dot (name p))) in *.
    assert (K : (0 < k < List.length (name p))%nat) by lia.
    destruct (skipn k (name p)) as [|d [|a [|b [|c [|y t]]]]] eqn:Sk; try discriminate.
    cbn [lower map] in E. inversion E as [[Ed Ea Eb Ec]].
    apply lower_char_plain in Ed; [|lia]. apply lower_char_plain in Eb; [|lia].
    apply lower_char_letter in Ea; [|lia]. apply lower_char_letter in Ec; [|lia].
    pose proof (firstn_skipn k (name p)) as FS. rewrite Sk in FS.
    assert (F : firstn k (name p) <> []).
    { intro F. apply (f_equal (@List.length char)) in F.
      rewrite length_firstn in F. simpl in F. lia. }
    unfold has_playlist_extension in H. rewrite <- FS, rev_app_distr in H.
    cbn [rev app] in H.
    destruct (rev (firstn k (name p))) as [|x r] eqn:RF.
    + apply (f_equal (@rev char)) in RF. rewrite rev_involutive in RF. contradiction.
    + subst d b. destruct Ea as [-> | ->]; destruct Ec as [-> | ->]; discriminate.
Qed.

(* ------------------------------------------------------------------ *)
(** ** Links and refusals: the file locator *)

Lemma posix_is_file_true (fs : Posix.FS) (p : Path) :
  Posix.is_file fs p = Ok true <->
  Posix.stat_error fs p = false /\ exists q t, Posix.locate fs p = Some (q, Posix.File t).
Proof.
  unfold Posix.is_file. destruct (Posix.stat_error fs p).
  - split; [discriminate | intros [H _]; discriminate].
  - split.
    + intro H. split; [reflexivity|].
      destruct (Posix.locate fs p) as [[q [t|es|t|]]|]; try discriminate. eauto.
    + intros [_ [q [t H]]]. now rewrite H.
Qed.

Lemma posix_is_dir_true (fs : Posix.FS) (p : Path) :
  Posix.is_dir fs p = Ok true ->
  Posix.stat_error fs p = false /\ Posix.is_file fs p = Ok false.
Proof.
  unfold Posix.is_dir, Posix.is_file. destruct (Posix.stat_error fs p); [discriminate|].
  destruct (Posix.locate fs p) as [[q [t|es|t|]]|]; try discriminate. auto.
Qed.

Lemma posix_is_file_raises (fs : Posix.FS) (p : Path) (e : exn) :
  Posix.is_file fs p = Raise e -> e = OSError p /\ Posix.stat_error fs p = true.
Proof.
  unfold Posix.is_file. destruct (Posix.stat_error fs p); [|discriminate].
  intro H. inversion H. auto.
Qed.

Lemma select_files_only_fs (fs : Posix.FS) (found : list Path) :
  forallb is_fs_event (fst (Posix.select_files fs found)) = true.
Proof.
  induction found as [|p found IH]; [reflexivity|].
  cbn [Posix.select_files]. destruct (Posix.is_file fs p) as [b|e]; [|reflexivity].
  destruct (Posix.select_files fs found) as [evs r]. exact IH.
Qed.

(** What the generator of [gather_m3u_files] yields when it runs to its end. *)
Lemma select_files_ok (fs : Posix.FS) (found kept : list Path) :
  snd (Posix.select_files fs found) = Ok kept ->
  forall q, In q kept <->
            exists p, In p found /\ Posix.is_file fs p = Ok true /\ q = Posix.resolve fs p.
Proof.
  revert kept; induction found as [|p found IH]; intros kept H q.
  - simpl in H. inversion H. split; [intros [] | intros [p [[] _]]].
  - cbn [Posix.select_files] in H.
    destruct (Posix.is_file fs p) as [b|e] eqn:F; [|discriminate].
    destruct (Posix.select_files fs found) as [evs [kept'|e]]; [|discriminate].
    specialize (IH kept' eq_refl q). cbn [snd] in H. inversion H as [K]. clear H.
    destruct b.
    + split.
      * intros [<- | Hq]; [exists p; auto using in_eq|].
        apply IH in Hq as [p' [Hp' R]]. exists p'. split; [now right | exact R].
      * intros [p' [[<- | Hp'] [Fp R]]]; [left; now symmetry|].
        right. apply IH. eauto.
    + split.
      * intro Hq. apply IH in Hq as [p' [Hp' R]]. exists p'. split; [now right | exact R].
      * intros [p' [[<- | Hp'] [Fp R]]]; [rewrite F in Fp; discriminate|].
        apply IH. eauto.
Qed.


Lemma select_files_raises (fs : Posix.FS) (found : list Path) (e : exn) :
  snd (Posix.select_files fs found) = Raise e ->
  exists p, In p found /\ e = OSError p /\ Posix.stat_error fs p = true.
Proof.
  induction found as [|p found IH]; [discriminate|].
  cbn [Posix.select_files].
  destruct (Posix.is_file fs p) as [b|e'] eqn:F.
  - destruct (Posix.select_files fs found) as [evs [kept|e']]; [discriminate|].
    cbn [snd] in *. intro H. inversion H; subst.
    destruct (IH eq_refl) as [p' [Hp' R]]. exists p'. split; [now right | exact R].
  - cbn [snd]. intro H. inversion H; subst.
    apply posix_is_file_raises in F as [-> F]. exists p. auto using in_eq.
Qed.

Lemma posix_gather_refused (fs : Posix.FS) (root : Path) :
  Posix.stat_error fs root = true ->
  Posix.gather_m3u_files fs root = ([FsIsFile root], Raise (OSError root)).
Proof. intro H. unfold Posix.gather_m3u_files, Posix.is_file. now rewrite H. Qed.

Lemma posix_gather_file (fs : Posix.FS) (root : Path) :
  Posix.is_file fs root = Ok true ->
  snd (Posix.gather_m3u_files fs root) =
  if has_playlist_extension (name root) then Ok [Posix.resolve fs root]
  else Raise (ValueError root).
Proof.
  intro H. unfold Posix.gather_m3u_files. rewrite H, extension_ci.
  destruct (has_playlist_extension (name root)); reflexivity.
Qed.

Lemma posix_gather_missing (fs : Posix.FS) (root : Path) :
  Posix.is_file fs root = Ok false -> Posix.is_dir fs root = Ok false ->
  snd (Posix.gather_m3u_files fs root) = Raise (NotADirectoryError root).
Proof. intros H1 H2. unfold Posix.gather_m3u_files. now rewrite H1, H2. Qed.

Lemma posix_gather_dir (fs : Posix.FS) (root : Path) :
  Posix.is_dir fs root = Ok true ->
  snd (Posix.gather_m3u_files fs root) =
  match snd (Posix.select_files fs (Posix.glob fs root (py "*.m3u"))) with
  | Ok kept => Ok (sorted kept)
  | Raise e => Raise e
  end.
Proof.
  intro H. unfold Posix.gather_m3u_files.
  destruct (posix_is_dir_true _ _ H) as [_ F]. rewrite F, H.
  destruct (Posix.select_files fs _) as [evs r]. reflexivity.
Qed.

Lemma posix_gather_only_fs (fs : Posix.FS) (root : Path) :
  forallb is_fs_event (fst (Posix.gather_m3u_files fs root)) = true.
Proof.
  unfold Posix.gather_m3u_files.
  destruct (Posix.is_file fs root) as [[|]|e]; try reflexivity.
  - destruct (negb _); reflexivity.
  - destruct (Posix.is_dir fs root) as [[|]|e]; try reflexivity.
    pose proof (select_files_only_fs fs (Posix.glob fs root (py "*.m3u"))) as S.
    destruct (Posix.select_files fs _) as [evs r]. exact S.
Qed.

Lemma posix_gather_raises (fs : Posix.FS) (root : Path) (e : exn) :
  snd (Posix.gather_m3u_files fs root) = Raise e ->
  e = ValueError root \/ e = NotADirectoryError root \/
  exists p, e = OSError p /\ Posix.stat_error fs p = true.
Proof.
  unfold Posix.gather_m3u_files.
  destruct (Posix.is_file fs root) as [[|]|e'] eqn:F.
  - destruct (negb _); cbn [snd]; intro H; inversion H; auto.
  - destruct (Posix.is_dir fs root) as [[|]|e''] eqn:D.
    + pose proof (@select_files_raises fs (Posix.glob fs root (py "*.m3u")) e) as S.
      destruct (Posix.select_files fs _) as [evs [kept|e0]]; cbn [snd] in *; [discriminate|].
      intro H. inversion H; subst. destruct (S eq_refl) as [p [_ R]]. eauto.
    + cbn [snd]. intro H. inversion H; auto.
    + cbn [snd]. intro H. inversion H; subst.
      unfold Posix.is_dir in D. destruct (Posix.stat_error fs root) eqn:SE; [|discriminate].
      inversion D. eauto.
  - cbn [snd]. intro H. inversion H; subst.
    apply posix_is_file_raises in F as [-> F]. eauto.
Qed.

Lemma in_posix_glob (fs : Posix.FS) (root : Path) (p : Path) :
  In p (Posix.glob fs root (py "*.m3u")) <->
  exists nm, p = joinpath root nm /\ In nm (Posix.scandir fs root) /\
             exists pre, nm = pre ++ py ".m3u".
Proof.
  unfold Posix.glob. rewrite in_map_iff. split.
  - intros [nm [<- H]]. apply filter_In in H as [H M]. apply fnmatch_m3u in M. eauto.
  - intros [nm [-> [H M]]]. exists nm. split; auto. apply filter_In.
    split; auto. now apply fnmatch_m3u.
Qed.

(* ------------------------------------------------------------------ *)
(** ** Links and refusals: the run *)

Lemma posix_parse_only_fs (fs : Posix.FS) (p : Path) :
  forallb is_fs_event (fst (Posix.parse_m3u fs p)) = true.
Proof.
  unfold Posix.parse_m3u. destruct (Posix.is_file fs p) as [[|]|e]; try reflexivity.
  destruct (Posix.read_text fs p); reflexivity.
Qed.

(** A regular file that [stat] and [open] do not refuse parses to its tracks. *)
Lemma posix_parse_file (fs : Posix.FS) (p q : Path) (text : str) :
  Posix.locate fs p = Some (q, Posix.File text) ->
  Posix.stat_error fs p = false -> Posix.open_error fs p = false ->
  snd (Posix.parse_m3u fs p) = Ok (spec_tracks text).
Proof.
  intros L S O. unfold Posix.parse_m3u, Posix.is_file, Posix.read_text.
  rewrite S, O, L. cbn [snd]. f_equal. apply fold_parse_line.
Qed.

Section PosixMainFacts.

Variable raises_for_status : Z -> bool.
Variable default_headers : list (str * str).
Variable cfg : Settings.
Variable server : Server.
Variable fs_discovery : Posix.FS.
Variable fs_upload : nat -> Posix.FS.

Local Abbreviation pmain := (Posix.main raises_for_status default_headers cfg server fs_discovery fs_upload).
Local Abbreviation plogin := (login raises_for_status cfg server).
Local Abbreviation pupload_one := (Posix.upload_one raises_for_status cfg server fs_upload).
Local Abbreviation pupload_loop := (Posix.upload_loop raises_for_status cfg server fs_upload).
Local Abbreviation psession0 := (main_session default_headers).

Lemma posix_upload_one_events session i sent p :
  fst (pupload_one session i sent p) =
  fst (Posix.parse_m3u (fs_upload i) p) ++
  match snd (Posix.parse_m3u (fs_upload i) p) with
  | Ok songs => [Http (save_request cfg session (stem p) songs)]
  | Raise _ => []
  end.
Proof.
  unfold Posix.upload_one, save_request.
  destruct (Posix.parse_m3u (fs_upload i) p) as [ev1 [songs|e]]; simpl.
  - pose proof (api_request_events raises_for_status cfg server sent session
      (py "POST") (py "/api/v1/playlist/save")
      [(py "title", JString (stem p)); (py "songs", JArray songs)]) as E.
    destruct (api_request raises_for_status cfg server _ _ _ _ _) as [ev2 r].
    simpl in E. subst ev2. destruct r; reflexivity.
  - now rewrite app_nil_r.
Qed.

Lemma posix_upload_loop_step session i sent p rest :
  pupload_loop session i sent (p :: rest) =
  fst (pupload_one session i sent p) ++
  pupload_loop session (S i) (sent ++ http_calls (fst (pupload_one session i sent p))) rest.
Proof.
  simpl. destruct (pupload_one session i sent p) as [evs [u|e]]; reflexivity.
Qed.

Lemma posix_upload_loop_http session files : forall i sent,
  http_calls (pupload_loop session i sent files) =
  Posix.uploads_due cfg fs_upload session i files.
Proof.
  induction files as [|p rest IH]; intros i sent; [reflexivity|].
  rewrite posix_upload_loop_step, http_calls_app, IH, posix_upload_one_events, http_calls_app.
  rewrite (http_calls_fs _ (posix_parse_only_fs (fs_upload i) p)).
  cbn [Posix.uploads_due]. destruct (snd (Posix.parse_m3u (fs_upload i) p)); reflexivity.
Qed.

Lemma posix_uploads_due_from session files : forall i r,
  In r (Posix.uploads_due cfg fs_upload session i files) ->
  exists p songs, In p files /\ r = save_request cfg session (stem p) songs.
Proof.
  induction files as [|q rest IH]; intros i r H; simpl in H; [contradiction|].
  destruct (snd (Posix.parse_m3u (fs_upload i) q)) as [songs|e].
  - destruct H as [<- | H].
    + exists q, songs. split; [now left | reflexivity].
    + destruct (IH _ _ H) as [p [s [Hin E]]]. exists p, s. split; [now right | exact E].
  - destruct (IH _ _ H) as [p [s [Hin E]]]. exists p, s. split; [now right | exact E].
Qed.

Lemma posix_main_config_error args :
  validate cfg <> Ok tt -> pmain args = ([], Exit 1).
Proof.
  intro H. unfold Posix.main.
  destruct (validate_cases cfg) as [E | [m [_ E]]]; [contradiction|].
  now rewrite E.
Qed.

Lemma posix_main_cli_exit code :
  validate cfg = Ok tt -> pmain (Posix.CliExit code) = ([], Exit code).
Proof. intro V. unfold Posix.main. now rewrite V. Qed.

Lemma posix_main_cli_raise e :
  validate cfg = Ok tt -> pmain (Posix.CliRaise e) = ([], Uncaught e).
Proof. intro V. unfold Posix.main. now rewrite V. Qed.

Lemma posix_main_discovery_error target e :
  validate cfg = Ok tt ->
  snd (Posix.gather_m3u_files fs_discovery target) = Raise e ->
  pmain (Posix.CliPath target) =
  (fst (Posix.gather_m3u_files fs_discovery target),
   match e with OSError _ => Uncaught e | _ => Exit 1 end).
Proof.
  intros V G. unfold Posix.main. rewrite V.
  destruct (posix_gather_raises _ _ G) as [-> | [-> | [p [-> _]]]];
    destruct (Posix.gather_m3u_files fs_discovery target) as [ev1 found];
    simpl in G; subst found; reflexivity.
Qed.

Lemma posix_main_no_files target :
  validate cfg = Ok tt ->
  snd (Posix.gather_m3u_files fs_discovery target) = Ok [] ->
  pmain (Posix.CliPath target) = (fst (Posix.gather_m3u_files fs_discovery target), Exit 1).
Proof.
  intros V G. unfold Posix.main. rewrite V.
  destruct (Posix.gather_m3u_files fs_discovery target) as [ev1 found].
  simpl in G; subst found; reflexivity.
Qed.

Lemma posix_main_login_error target files e :
  validate cfg = Ok tt ->
  snd (Posix.gather_m3u_files fs_discovery target) = Ok files -> files <> [] ->
  snd (plogin [] psession0) = Raise e ->
  pmain (Posix.CliPath target) =
  (fst (Posix.gather_m3u_files fs_discovery target) ++ [Http (login_request cfg psession0)],
   Exit 1).
Proof.
  intros V G N L. unfold Posix.main. rewrite V.
  destruct (Posix.gather_m3u_files fs_discovery target) as [ev1 found].
  simpl in G; subst found. destruct files as [|p rest]; [contradiction|].
  pose proof (login_events raises_for_status cfg server [] psession0) as E.
  destruct (plogin [] psession0) as [ev2 r]. simpl in *. subst. reflexivity.
Qed.

Lemma posix_main_uploads target files session :
  validate cfg = Ok tt ->
  snd (Posix.gather_m3u_files fs_discovery target) = Ok files -> files <> [] ->
  snd (plogin [] psession0) = Ok session ->
  pmain (Posix.CliPath target) =
  (fst (Posix.gather_m3u_files fs_discovery target) ++ [Http (login_request cfg psession0)] ++
   pupload_loop session 0 [login_request cfg psession0] files, Exit 0).
Proof.
  intros V G N L. unfold Posix.main. rewrite V.
  destruct (Posix.gather_m3u_files fs_discovery target) as [ev1 found].
  simpl in G; subst found. destruct files as [|p rest]; [contradiction|].
  pose proof (login_events raises_for_status cfg server [] psession0) as E.
  destruct (plogin [] psession0) as [ev2 r]. simpl in *. subst. reflexivity.
Qed.

(** The calls of a run: none, the login alone, or the login and the uploads due. *)
Lemma posix_main_cases args :
  http_calls (fst (pmain args)) = [] \/
  exists target files,
    args = Posix.CliPath target /\ validate cfg = Ok tt /\
    snd (Posix.gather_m3u_files fs_discovery target) = Ok files /\ files <> [] /\
    ((exists e, snd (plogin [] psession0) = Raise e /\
        snd (pmain args) = Exit 1 /\
        http_calls (fst (pmain args)) = [login_request cfg psession0]) \/
     (exists session, snd (plogin [] psession0) = Ok session /\
        snd (pmain args) = Exit 0 /\
        http_calls (fst (pmain args)) =
          login_request cfg psession0 :: Posix.uploads_due cfg fs_upload session 0 files)).
Proof.
  destruct (validate_cases cfg) as [V | [m [_ V]]].
  2:{ left. rewrite posix_main_config_error; [reflexivity|]. rewrite V. discriminate. }
  destruct args as [target|code|e].
  2:{ left. now rewrite posix_main_cli_exit. }
  2:{ left. now rewrite posix_main_cli_raise. }
  pose proof (http_calls_fs _ (posix_gather_only_fs fs_discovery target)) as Hfs.
  destruct (snd (Posix.gather_m3u_files fs_discovery target)) as [files|e] eqn:G.
  2:{ left. now rewrite (@posix_main_discovery_error target e V G). }
  destruct files as [|p rest].
  { left. now rewrite (@posix_main_no_files target V G). }
  right. exists target, (p :: rest). repeat split; auto; try discriminate.
  destruct (snd (plogin [] psession0)) as [session|e] eqn:L.
  - right. exists session. split; auto.
    rewrite (@posix_main_uploads target _ session V G ltac:(discriminate) L). cbn [fst snd].
    rewrite !http_calls_app, Hfs. cbn [http_calls app]. now rewrite posix_upload_loop_http.
  - left. exists e. split; auto.
    rewrite (@posix_main_login_error target _ e V G ltac:(discriminate) L). cbn [fst snd].
    rewrite http_calls_app, Hfs. auto.
Qed.

End PosixMainFacts.

(** The turns of the upload loop do not depend on the server, nor on the
    calls made before. *)
Lemma posix_upload_loop_server raises_for_status cfg (server1 server2 : Server)
    (fs_upload : nat -> Posix.FS) session files : forall i sent1 sent2,
  Posix.upload_loop raises_for_status cfg server1 fs_upload session i sent1 files =
  Posix.upload_loop raises_for_status cfg server2 fs_upload session i sent2 files.
Proof.
  induction files as [|p rest IH]; intros i sent1 sent2; [reflexivity|].
  rewrite !posix_upload_loop_step, !posix_upload_one_events. f_equal. apply IH.
Qed.

(* ------------------------------------------------------------------ *)
(** ** The file locator on a file system with links and refusals *)

Lemma entry_of_name (nm : str) (es : list (str * Posix.Node)) :
  In nm (map fst es) -> exists child, Posix.entry nm es = Some child.
Proof.
  induction es as [|[k n] es IH]; [intros []|].
  cbn [map fst In Posix.entry]. intros [-> | H].
  - exists n. now rewrite (proj2 (str_eqb_eq nm nm) eq_refl).
  - destruct (str_eqb nm k); eauto.
Qed.

Lemma joinpath_inj (p : Path) (a b : str) : joinpath p a = joinpath p b -> a = b.
Proof. unfold joinpath. intro H. now apply app_inv_head in H; inversion H. Qed.

Lemma select_files_ok_stat (fs : Posix.FS) (found kept : list Path) :
  snd (Posix.select_files fs found) = Ok kept ->
  forall p, In p found -> Posix.stat_error fs p = false.
Proof.
  revert kept; induction found as [|p found IH]; intros kept H q; [intros []|].
  cbn [Posix.select_files] in H.
  destruct (Posix.is_file fs p) as [b|e] eqn:F; [|discriminate].
  destruct (Posix.select_files fs found) as [evs [kept'|e]]; [|discriminate].
  intros [<- | Hq].
  - unfold Posix.is_file in F. now destruct (Posix.stat_error fs p).
  - now apply (IH kept' eq_refl).
Qed.

(** The four ways through [gather_m3u_files]. *)
Lemma posix_gather_cases (fs : Posix.FS) (root : Path) :
  (Posix.is_file fs root = Ok true /\
   snd (Posix.gather_m3u_files fs root) =
     if has_playlist_extension (name root) then Ok [Posix.resolve fs root]
     else Raise (ValueError root)) \/
  (Posix.is_file fs root = Ok false /\ Posix.is_dir fs root = Ok false /\
   snd (Posix.gather_m3u_files fs root) = Raise (NotADirectoryError root)) \/
  (Posix.is_file fs root = Ok false /\ Posix.is_dir fs root = Ok true /\
   ((exists kept, snd (Posix.select_files fs (Posix.glob fs root (py "*.m3u"))) = Ok kept /\
                  snd (Posix.gather_m3u_files fs root) = Ok (sorted kept)) \/
    (exists p, Posix.stat_error fs p = true /\
               snd (Posix.gather_m3u_files fs root) = Raise (OSError p)))) \/
  (Posix.stat_error fs root = true /\
   snd (Posix.gather_m3u_files fs root) = Raise (OSError root)).
Proof.
  destruct (Posix.stat_error fs root) eqn:SE.
  { right. right. right. split; [reflexivity|]. now rewrite posix_gather_refused. }
  destruct (Posix.is_file fs root) as [[|]|e] eqn:F.
  - left. split; [reflexivity|]. now apply posix_gather_file.
  - destruct (Posix.is_dir fs root) as [[|]|e] eqn:D.
    + right. right. left. split; [reflexivity|]. split; [reflexivity|].
      rewrite (posix_gather_dir _ _ D).
      destruct (snd (Posix.select_files fs (Posix.glob fs root (py "*.m3u")))) as [kept|e] eqn:S.
      * left. eauto.
      * right. apply select_files_raises in S as [p [_ [-> S]]]. eauto.
    + right. left. split; [reflexivity|]. split; [reflexivity|].
      now apply posix_gather_missing.
    + unfold Posix.is_dir in D. rewrite SE in D. discriminate.
  - unfold Posix.is_file in F. rewrite SE in F. discriminate.
Qed.

(** What a directory scan returns. *)
Lemma posix_gather_dir_members (fs : Posix.FS) (root : Path) (files : list Path) :
  Posix.is_dir fs root = Ok true ->
  snd (Posix.gather_m3u_files fs root) = Ok files ->
  forall q, In q files <->
    exists nm pre t, In nm (Posix.scandir fs root) /\ nm = pre ++ py ".m3u" /\
                     Posix.locate fs (joinpath root nm) = Some (q, Posix.File t).
Proof.
  intros D G q. rewrite (posix_gather_dir _ _ D) in G.
  destruct (snd (Posix.select_files fs (Posix.glob fs root (py "*.m3u")))) as [kept|e] eqn:S;
    [|discriminate].
  inversion G; subst files. rewrite in_sorted, (select_files_ok _ _ S). split.
  - intros [p [Hp [F ->]]]. apply in_posix_glob in Hp as [nm [-> [Hn [pre E]]]].
    apply posix_is_file_true in F as [_ [q [t L]]].
    exists nm, pre, t. repeat split; auto. unfold Posix.resolve. now rewrite L.
  - intros [nm [pre [t [Hn [E L]]]]]. exists (joinpath root nm).
    assert (Hp : In (joinpath root nm) (Posix.glob fs root (py "*.m3u"))).
    { apply in_posix_glob. exists nm. repeat split; eauto. }
    split; [exact Hp|]. split.
    + apply posix_is_file_true. split; [apply (select_files_ok_stat _ _ S _ Hp) | eauto].
    + unfold Posix.resolve. now rewrite L.
Qed.

(** Every path discovery returns is the real path of a regular file. *)
Lemma posix_gather_results_real (fs : Posix.FS) (root : Path) (files : list Path) (q : Path) :
  snd (Posix.gather_m3u_files fs root) = Ok files -> In q files ->
  exists t, Posix.locate fs q = Some (q, Posix.File t).
Proof.
  intros G Hq.
  destruct (posix_gather_cases fs root)
    as [[F E] | [[_ [_ E]] | [[_ [D _]] | [_ E]]]]; try (rewrite E in G; discriminate).
  - rewrite E in G. destruct (has_playlist_extension (name root)); [|discriminate].
    inversion G; subst files. destruct Hq as [<- | []].
    apply posix_is_file_true in F as [_ [q [t L]]].
    unfold Posix.resolve. rewrite L. exists t. now apply locate_real in L.
  - apply (posix_gather_dir_members _ _ D G) in Hq as [nm [pre [t [_ [_ L]]]]].
    exists t. now apply locate_real in L.
Qed.




(** C5. [gather_m3u_files] raises [ValueError] exactly when [stat] finds a
    regular file at the path and the name lacks the extension [.m3u] in any
    case of its letters, and [NotADirectoryError] exactly when [stat]
    answers and finds neither a regular file nor a directory; both end the
    run with exit code 1 and without any HTTP call.  A regular file with the
    extension gives the list of its resolved path alone.  The only other
    failure is the [OSError] of a [stat] that was refused: [main] does not
    catch it, so the run ends with that exception, again without any HTTP
    call. *)
Theorem gather_rejects_bad_paths raises_for_status default_headers cfg server
    (fs : Posix.FS) (fs_upload : nat -> Posix.FS) (root : Path) :
  validate cfg = Ok tt ->
  ((exists p, snd (Posix.gather_m3u_files fs root) = Raise (ValueError p)) <->
   Posix.is_file fs root = Ok true /\ has_playlist_extension (name root) = false) /\
  ((exists p, snd (Posix.gather_m3u_files fs root) = Raise (NotADirectoryError p)) <->
   Posix.is_file fs root = Ok false /\ Posix.is_dir fs root = Ok false) /\
  (Posix.is_file fs root = Ok true -> has_playlist_extension (name root) = true ->
   snd (Posix.gather_m3u_files fs root) = Ok [Posix.resolve fs root]) /\
  (forall p,
     snd (Posix.gather_m3u_files fs root) = Raise (ValueError p) \/
     snd (Posix.gather_m3u_files fs root) = Raise (NotADirectoryError p) ->
     p = root /\
     snd (Posix.main raises_for_status default_headers cfg server fs fs_upload
            (Posix.CliPath root)) = Exit 1 /\
     http_calls (fst (Posix.main raises_for_status default_headers cfg server fs fs_upload
                        (Posix.CliPath root))) = []) /\
  (forall e,
     snd (Posix.gather_m3u_files fs root) = Raise e ->
     (exists p, e = ValueError p) \/ (exists p, e = NotADirectoryError p) \/
     exists p, e = OSError p /\ Posix.stat_error fs p = true /\
       snd (Posix.main raises_for_status default_headers cfg server fs fs_upload
              (Posix.CliPath root)) = Uncaught (OSError p) /\
       http_calls (fst (Posix.main raises_for_status default_headers cfg server fs fs_upload
                          (Posix.CliPath root))) = []) /\
  (Posix.stat_error fs root = true ->
   snd (Posix.gather_m3u_files fs root) = Raise (OSError root)).
Proof.
  intro V.
  pose proof (http_calls_fs _ (posix_gather_only_fs fs root)) as Hfs.
  pose proof (posix_gather_cases fs root) as C.
  split; [|split; [|split; [|split; [|split]]]].
  - split.
    + intros [p G].
      destruct C as [[F E] | [[_ [_ E]] | [[_ [_ [[k [_ E]] | [q [_ E]]]]] | [_ E]]]];
        rewrite E in G; try discriminate.
      destruct (has_playlist_extension (name root)); [discriminate | auto].
    + intros [F X].
      destruct C as [[_ E] | [[F' _] | [[F' _] | [S _]]]].
      * rewrite X in E. eauto.
      * rewrite F in F'. discriminate.
      * rewrite F in F'. discriminate.
      * apply posix_is_file_true in F as [F _]. rewrite F in S. discriminate.
  - split.
    + intros [p G].
      destruct C as [[F E] | [[F [D E]] | [[_ [_ [[k [_ E]] | [q [_ E]]]]] | [_ E]]]];
        rewrite E in G; try discriminate; auto.
      destruct (has_playlist_extension (name root)); discriminate.
    + intros [F D]. exists root. now apply posix_gather_missing.
  - intros F X. rewrite (posix_gather_file _ _ F), X. reflexivity.
  - intros p G.
    assert (P : p = root).
    { destruct G as [G | G]; apply posix_gather_raises in G as [G | [G | [q [G _]]]];
        now inversion G. }
    split; [exact P|]. subst p.
    destruct G as [G | G];
      rewrite (@posix_main_discovery_error raises_for_status default_headers cfg server
                 fs fs_upload root _ V G); auto.
  - intros e G. destruct (posix_gather_raises _ _ G) as [-> | [-> | [p [-> S]]]]; eauto.
    right. right. exists p. split; [reflexivity|]. split; [exact S|].
    rewrite (@posix_main_discovery_error raises_for_status default_headers cfg server
               fs fs_upload root _ V G). auto.
  - intro S. now rewrite posix_gather_refused.
Qed.

(** In the sample tree [elsewhere/t.txt] is a regular file without the
    extension: given as the path, it ends the run with exit code 1 before
    any HTTP call. *)
Lemma gather_rejects_sample_witness :
  validate sample_cfg = Ok tt /\
  snd (Posix.gather_m3u_files sample_posix [py "elsewhere"; py "t.txt"]) =
    Raise (ValueError [py "elsewhere"; py "t.txt"]) /\
  snd (Posix.main requests_raise_for_status requests_default_headers sample_cfg
         (sample_server 9 500) sample_posix (fun _ => sample_posix)
         (Posix.CliPath [py "elsewhere"; py "t.txt"])) = Exit 1 /\
  http_calls (fst (Posix.main requests_raise_for_status requests_default_headers sample_cfg
                     (sample_server 9 500) sample_posix (fun _ => sample_posix)
                     (Posix.CliPath [py "elsewhere"; py "t.txt"]))) = [].
Proof.
  split; [reflexivity|]. split; [reflexivity|].
  destruct (@gather_rejects_bad_paths requests_raise_for_status requests_default_headers
              sample_cfg (sample_server 9 500) sample_posix (fun _ => sample_posix)
              [py "elsewhere"; py "t.txt"] eq_refl) as [_ [_ [_ [H _]]]].
  exact (proj2 (H [py "elsewhere"; py "t.txt"] (or_introl eq_refl))).
Defined.

(** A path that is neither a file nor a directory need not end in
    [NotADirectoryError], as C5 was stated: a name of 300 characters is
    nothing in the sample tree, yet [gather_m3u_files] raises the [OSError]
    of the refused [stat], and [main] ends with that exception instead of
    returning 1. *)
Lemma gather_refused_path_sample :
  Posix.locate sample_posix [long_name] = None /\
  snd (Posix.gather_m3u_files sample_posix [long_name]) = Raise (OSError [long_name]) /\
  snd (Posix.main requests_raise_for_status requests_default_headers sample_cfg
         (sample_server 9 500) sample_posix (fun _ => sample_posix)
         (Posix.CliPath [long_name])) = Uncaught (OSError [long_name]).
Proof. repeat split. Qed.

(** C10. The two input modes test the extension differently.  A regular
    file given as the path is accepted exactly when its name ends in [.m3u]
    in any case of the letters, with something before the dot.  A directory
    scan looks only at entries whose name ends in the characters [.m3u] as
    written: such an entry has the suffix [.m3u] when something precedes the
    dot and no suffix when it is named [.m3u], and a regular file among them
    is collected.  So in a directory where no entry of that kind is a link,
    a regular file whose extension has another case, like [SONGS.M3U], is
    left out of the scan without any error, while the same file given as
    the path is accepted. *)
Theorem extension_matching_by_mode (fs : Posix.FS) (root : Path)
    (es : list (str * Posix.Node)) (nm text : str) :
  Posix.locate fs root = Some (root, Posix.Dir es) ->
  Posix.entry nm es = Some (Posix.File text) ->
  Posix.stat_error fs (joinpath root nm) = false ->
  (snd (Posix.gather_m3u_files fs (joinpath root nm)) = Ok [joinpath root nm] <->
   has_playlist_extension nm = true) /\
  (forall files,
     snd (Posix.gather_m3u_files fs root) = Ok files ->
     (forall q, In q files ->
        exists nm' pre t,
          In nm' (Posix.scandir fs root) /\ nm' = pre ++ py ".m3u" /\
          Posix.locate fs (joinpath root nm') = Some (q, Posix.File t) /\
          (pre <> [] -> suffix (joinpath root nm') = py ".m3u") /\
          (pre = [] -> suffix (joinpath root nm') = [])) /\
     (forall pre, In nm (Posix.scandir fs root) -> nm = pre ++ py ".m3u" ->
                  In (joinpath root nm) files) /\
     (has_playlist_extension nm = true ->
      fnmatch (py "*.m3u") nm = false ->
      (forall nm' target, Posix.entry nm' es = Some (Posix.Link target) ->
                          fnmatch (py "*.m3u") nm' = false) ->
      ~ In (joinpath root nm) files)).
Proof.
  intros R E S.
  pose proof (@locate_child fs root es nm _ R E I) as L.
  assert (F : Posix.is_file fs (joinpath root nm) = Ok true).
  { apply posix_is_file_true. eauto. }
  assert (D : Posix.stat_error fs root = false -> Posix.is_dir fs root = Ok true).
  { intro SR. unfold Posix.is_dir. now rewrite SR, R. }
  split.
  - rewrite (posix_gather_file _ _ F), name_joinpath.
    unfold Posix.resolve. rewrite L.
    destruct (has_playlist_extension nm); split; intro H; try reflexivity; discriminate.
  - intros files G.
    assert (D' : Posix.is_dir fs root = Ok true).
    { apply D. destruct (Posix.stat_error fs root) eqn:SR; [|reflexivity].
      rewrite (posix_gather_refused _ _ SR) in G. discriminate. }
    pose proof (posix_gather_dir_members _ _ D' G) as M.
    split; [|split].
    + intros q Hq. apply M in Hq as [nm' [pre [t [Hn [En Lq]]]]].
      exists nm', pre, t. repeat split; auto.
      * intro N. apply (@suffix_of_m3u_name (joinpath root nm') pre); [|exact N].
        now rewrite name_joinpath.
      * intros ->. unfold suffix. rewrite name_joinpath, En. reflexivity.
    + intros pre Hn En. apply M. exists nm, pre, text. auto.
    + intros X NM NL Hq. apply M in Hq as [nm' [pre [t [Hn [En Lq]]]]].
      assert (Hes : In nm' (map fst es)).
      { unfold Posix.scandir in Hn. rewrite R in Hn.
        destruct (Posix.scandir_denied fs root); [contradiction | exact Hn]. }
      assert (FM : fnmatch (py "*.m3u") nm' = true) by (apply fnmatch_m3u; eauto).
      destruct (entry_of_name _ _ Hes) as [child C].
      assert (NLc : match child with Posix.Link _ => False | _ => True end).
      { destruct child as [| |target|]; try exact I.
        rewrite (NL _ _ C) in FM. discriminate. }
      rewrite (@locate_child fs root es nm' _ R C NLc) in Lq.
      assert (J : joinpath root nm' = joinpath root nm) by now inversion Lq.
      apply joinpath_inj in J. rewrite J, NM in FM. discriminate.
Qed.

(** The sample directory of plain files: [SONGS.M3U] is accepted as the
    path and is not among the files the scan of its directory returns. *)
Lemma extension_matching_sample_witness :
  snd (Posix.gather_m3u_files (plain_fs sample_fs) [py "music"; py "SONGS.M3U"]) =
    Ok [[py "music"; py "SONGS.M3U"]] /\
  snd (Posix.gather_m3u_files (plain_fs sample_fs) [py "music"]) = Ok sample_files /\
  ~ In [py "music"; py "SONGS.M3U"] sample_files.
Proof.
  destruct (@extension_matching_by_mode (plain_fs sample_fs) [py "music"]
              (map (fun kc => match kc with (k, c) => (k, plain c) end) sample_music)
              (py "SONGS.M3U") sample_playlist eq_refl eq_refl eq_refl) as [A B].
  split; [apply A; reflexivity|]. split; [reflexivity|].
  destruct (B sample_files eq_refl) as [_ [_ N]].
  apply N; [reflexivity | reflexivity |].
  intros nm' target. cbn [map sample_music plain Posix.entry].
  repeat (destruct (str_eqb nm' _); [discriminate|]). discriminate.
Defined.

(** What a scan collects need not have the suffix [.m3u], as C10 was
    stated: a regular file named [.m3u] is collected although its suffix is
    empty, and the link [l.m3u] of the sample tree has the file
    [elsewhere/t.txt] collected. *)
Lemma scan_collects_other_suffixes_sample :
  snd (Posix.gather_m3u_files sample_dotfile [py "music"]) = Ok [[py "music"; py ".m3u"]] /\
  suffix [py "music"; py ".m3u"] = [] /\
  In [py "elsewhere"; py "t.txt"]
     [[py "elsewhere"; py "t.txt"]; [py "elsewhere"; py "t.txt"]; [py "music"; py "b.m3u"]] /\
  snd (Posix.gather_m3u_files sample_posix [py "music"]) =
    Ok [[py "elsewhere"; py "t.txt"]; [py "elsewhere"; py "t.txt"]; [py "music"; py "b.m3u"]] /\
  suffix [py "elsewhere"; py "t.txt"] = py ".txt".
Proof. repeat split. left. reflexivity. Qed.

(* ------------------------------------------------------------------ *)
(** ** The configuration check and the login, on any command line *)

Lemma getenv_unset (env : Environ) (key default : str) :
  env key = None -> getenv env key default = default.
Proof. unfold getenv. now intros ->. Qed.

Lemma getenv_empty_iff (env : Environ) (key default : str) :
  default <> [] -> (getenv env key default = [] <-> env key = Some []).
Proof.
  intro D. unfold getenv. destruct (env key) as [v|].
  - split; [now intros -> | intro E; now inversion E].
  - split; [contradiction | discriminate].
Qed.

(** C8. The configuration check is the first thing [main] does, and it
    looks at the settings, not at the environment: a setting whose variable
    is not set has its default and passes.  The check fails exactly when a
    setting is empty, that is when [MS_USERNAME] or [MS_PASSWORD] is set to
    the empty string or [MS_BASE_URL] to nothing but slashes; then
    [validate] raises [RuntimeError] and the run ends with exit code 1
    whatever the command line, before the command line is read, a path is
    probed or an HTTP call is made. *)
Theorem configuration_checked_first raises_for_status default_headers server
    (fs : Posix.FS) (fs_upload : nat -> Posix.FS) (env : Environ) :
  (validate (load_settings env) = Ok tt <->
   BASE_URL (load_settings env) <> [] /\ USERNAME (load_settings env) <> [] /\
   PASSWORD (load_settings env) <> []) /\
  (BASE_URL (load_settings env) = [] <->
   exists v, env (py "MS_BASE_URL") = Some v /\ forallb (N.eqb 47%N) v = true) /\
  (USERNAME (load_settings env) = [] <-> env (py "MS_USERNAME") = Some []) /\
  (PASSWORD (load_settings env) = [] <-> env (py "MS_PASSWORD") = Some []) /\
  (env (py "MS_BASE_URL") = None -> BASE_URL (load_settings env) = py "http://127.0.0.1:3000") /\
  (env (py "MS_USERNAME") = None -> USERNAME (load_settings env) = py "admin") /\
  (env (py "MS_PASSWORD") = None -> PASSWORD (load_settings env) = py "admin") /\
  (validate (load_settings env) <> Ok tt ->
   (exists missing, missing <> [] /\
                    validate (load_settings env) = Raise (RuntimeError missing)) /\
   forall args,
     Posix.main raises_for_status default_headers (load_settings env) server fs fs_upload args
     = ([], Exit 1)).
Proof.
  split; [apply validate_ok_iff|].
  unfold load_settings. cbn [BASE_URL USERNAME PASSWORD].
  split; [|split; [|split; [|split; [|split; [|split]]]]].
  - rewrite rstrip_nil_iff. unfold getenv.
    destruct (env (py "MS_BASE_URL")) as [v|].
    + assert (Q : forall s, forallb (char_in (py "/")) s = forallb (N.eqb 47%N) s).
      { induction s as [|c s IH]; [reflexivity|]. cbn [forallb]. rewrite IH. f_equal.
        unfold char_in. simpl. rewrite orb_false_r. apply N.eqb_sym. }
      rewrite Q. split; [eauto | intros [v' [E H]]; now inversion E].
    + split; [discriminate | intros [v [E _]]; discriminate].
  - apply getenv_empty_iff. discriminate.
  - apply getenv_empty_iff. discriminate.
  - intro E. now rewrite (@getenv_unset env _ _ E).
  - apply getenv_unset.
  - apply getenv_unset.
  - intro H. split.
    + destruct (validate_cases (load_settings env)) as [V | M]; [contradiction | exact M].
    + intro args. now apply posix_main_config_error.
Qed.

(** With [MS_PASSWORD] set to the empty string the run ends with exit code
    1 and an empty trace, even on a command line [argparse] would reject. *)
Lemma configuration_sample_witness :
  Posix.main requests_raise_for_status requests_default_headers
    (load_settings (fun key => if str_eqb key (py "MS_PASSWORD") then Some [] else None))
    (sample_server 9 500) sample_posix (fun _ => sample_posix) (Posix.CliExit 2)
  = ([], Exit 1).
Proof.
  destruct (@configuration_checked_first requests_raise_for_status requests_default_headers
              (sample_server 9 500) sample_posix (fun _ => sample_posix)
              (fun key => if str_eqb key (py "MS_PASSWORD") then Some [] else None))
    as [_ [_ [_ [_ [_ [_ [_ H]]]]]]].
  apply H. discriminate.
Defined.

(** A missing setting does not fail the check, as C8 was stated: with no
    variable set at all the check passes on the defaults, and the run goes
    on to log in and upload. *)
Lemma unset_settings_pass_sample :
  validate (load_settings empty_env) = Ok tt /\
  load_settings empty_env =
    {| BASE_URL := py "http://127.0.0.1:3000"; USERNAME := py "admin"; PASSWORD := py "admin" |} /\
  snd (Posix.main requests_raise_for_status requests_default_headers (load_settings empty_env)
         (sample_server 9 500) sample_posix (fun _ => sample_posix)
         (Posix.CliPath [py "music"])) = Exit 0 /\
  List.length (http_calls (fst (Posix.main requests_raise_for_status requests_default_headers
                                  (load_settings empty_env) (sample_server 9 500) sample_posix
                                  (fun _ => sample_posix) (Posix.CliPath [py "music"])))) = 4%nat.
Proof. repeat split. Qed.

(** C4. A login reply with a status that is not 2xx need not fail the login:
    [raise_for_status] of the [requests] library raises for 400 to 599 only.
    When the login call returns a response with any other status and a JSON
    object as its body, [login] succeeds and the run goes on to upload every
    file discovered and to exit with code 0. *)
Theorem login_accepts_other_statuses default_headers cfg server
    (fs : Posix.FS) (fs_upload : nat -> Posix.FS) (target : Path) (files : list Path)
    (resp : Response) (token : option str) :
  validate cfg = Ok tt ->
  snd (Posix.gather_m3u_files fs target) = Ok files -> files <> [] ->
  server [] (login_request cfg (main_session default_headers)) = Responded resp ->
  (status_code resp < 200 \/ 300 <= status_code resp < 400 \/ 600 <= status_code resp)%Z ->
  body resp = JsonObject token ->
  exists session,
    snd (login requests_raise_for_status cfg server [] (main_session default_headers))
      = Ok session /\
    snd (Posix.main requests_raise_for_status default_headers cfg server fs fs_upload
           (Posix.CliPath target)) = Exit 0 /\
    http_calls (fst (Posix.main requests_raise_for_status default_headers cfg server fs
                       fs_upload (Posix.CliPath target))) =
      login_request cfg (main_session default_headers)
      :: Posix.uploads_due cfg fs_upload session 0 files.
Proof.
  intros V G N Srv St B.
  assert (L : exists session,
            snd (login requests_raise_for_status cfg server [] (main_session default_headers))
            = Ok session).
  { unfold login, api_request. fold (login_request cfg (main_session default_headers)).
    rewrite Srv.
    assert (R : requests_raise_for_status (status_code resp) = false).
    { unfold requests_raise_for_status. apply andb_false_iff.
      destruct St as [St | [St | St]];
        [left; apply Z.leb_gt | left; apply Z.leb_gt | right; apply Z.ltb_ge]; lia. }
    rewrite R, B. destruct (truthy token); eexists; reflexivity. }
  destruct L as [session L]. exists session. split; [exact L|].
  rewrite (@posix_main_uploads requests_raise_for_status default_headers cfg server fs
             fs_upload target files session V G N L).
  cbn [fst snd]. split; [reflexivity|].
  rewrite !http_calls_app, (http_calls_fs _ (posix_gather_only_fs fs target)).
  cbn [http_calls app]. now rewrite posix_upload_loop_http.
Qed.

(** The sample server that answers 300 to everything: the run logs in,
    makes an upload call for each of the three files and exits with 0. *)
Lemma login_status_300_sample_witness :
  snd (Posix.main requests_raise_for_status requests_default_headers sample_cfg
         sample_server_300 sample_posix (fun _ => sample_posix)
         (Posix.CliPath [py "music"])) = Exit 0 /\
  List.length (http_calls (fst (Posix.main requests_raise_for_status requests_default_headers
                                  sample_cfg sample_server_300 sample_posix
                                  (fun _ => sample_posix) (Posix.CliPath [py "music"])))) = 4%nat.
Proof.
  destruct (@login_accepts_other_statuses requests_default_headers sample_cfg
              sample_server_300 sample_posix (fun _ => sample_posix) [py "music"]
              [[py "elsewhere"; py "t.txt"]; [py "elsewhere"; py "t.txt"]; [py "music"; py "b.m3u"]]
              {| status_code := 300%Z; body := JsonObject None |} None
              eq_refl eq_refl ltac:(discriminate) eq_refl
              ltac:(cbn [status_code]; lia) eq_refl)
    as [session [_ [E H]]].
  split; [exact E|]. reflexivity.
Defined.

(* ------------------------------------------------------------------ *)
(** ** What a run calls, on any file system and command line *)

(** X20. In any run the calls of [session.request] are none at all, or the
    login call followed only by playlist-save calls: the login is never
    repeated and comes before every upload.  A run that gets past
    configuration and discovery makes the login call.  [login] raises when
    the call returns no response, when [raise_for_status] raises for the
    status, or when the body is not a JSON object; the run then ends with
    exit code 1 after the login call alone. *)
Theorem login_once_and_fatal raises_for_status default_headers cfg server
    (fs : Posix.FS) (fs_upload : nat -> Posix.FS) (args : Posix.cli) :
  (http_calls (fst (Posix.main raises_for_status default_headers cfg server fs fs_upload args))
     = [] \/
   exists uploads,
     http_calls (fst (Posix.main raises_for_status default_headers cfg server fs fs_upload args))
       = login_request cfg (main_session default_headers) :: uploads /\
     Forall (fun r => req_url r = request_url cfg (py "/api/v1/playlist/save")) uploads) /\
  req_url (login_request cfg (main_session default_headers)) <>
    request_url cfg (py "/api/v1/playlist/save") /\
  (forall target files,
     args = Posix.CliPath target ->
     validate cfg = Ok tt ->
     snd (Posix.gather_m3u_files fs target) = Ok files -> files <> [] ->
     (exists uploads,
        http_calls (fst (Posix.main raises_for_status default_headers cfg server fs fs_upload
                           args))
          = login_request cfg (main_session default_headers) :: uploads) /\
     ((exists e, snd (login raises_for_status cfg server [] (main_session default_headers))
                 = Raise e) <->
      (server [] (login_request cfg (main_session default_headers)) = NoResponse \/
       exists resp,
         server [] (login_request cfg (main_session default_headers)) = Responded resp /\
         (raises_for_status (status_code resp) = true \/
          body resp = NotJson \/ body resp = JsonOther))) /\
     (forall e,
        snd (login raises_for_status cfg server [] (main_session default_headers)) = Raise e ->
        snd (Posix.main raises_for_status default_headers cfg server fs fs_upload args)
          = Exit 1 /\
        http_calls (fst (Posix.main raises_for_status default_headers cfg server fs fs_upload
                           args))
          = [login_request cfg (main_session default_headers)])).
Proof.
  pose proof (posix_main_cases raises_for_status default_headers cfg server fs fs_upload args)
    as C.
  assert (S : forall session i fl,
            Forall (fun r => req_url r = request_url cfg (py "/api/v1/playlist/save"))
                   (Posix.uploads_due cfg fs_upload session i fl)).
  { intros session i fl. apply Forall_forall. intros r Hr.
    apply posix_uploads_due_from in Hr as [q [songs [_ ->]]]. reflexivity. }
  split; [|split].
  - destruct C as [H | [t [fl [_ [_ [_ [_ [[e [_ [_ H]]] | [session [_ [_ H]]]]]]]]]]].
    + now left.
    + right. exists []. split; [exact H | constructor].
    + right. eexists. split; [exact H | apply S].
  - apply login_save_urls_differ.
  - intros target files -> V G N.
    pose proof (http_calls_fs _ (posix_gather_only_fs fs target)) as Hfs.
    split; [|split].
    + destruct (snd (login raises_for_status cfg server [] (main_session default_headers)))
        as [session|e] eqn:L.
      * rewrite (@posix_main_uploads raises_for_status default_headers cfg server fs
                   fs_upload target files session V G N L).
        cbn [fst]. rewrite http_calls_app, Hfs. cbn [app http_calls]. eauto.
      * rewrite (@posix_main_login_error raises_for_status default_headers cfg server fs
                   fs_upload target files e V G N L).
        cbn [fst]. rewrite http_calls_app, Hfs. cbn [app http_calls]. eauto.
    + apply login_raises_iff.
    + intros e L.
      rewrite (@posix_main_login_error raises_for_status default_headers cfg server fs
                 fs_upload target files e V G N L).
      cbn [fst snd]. rewrite http_calls_app, Hfs. auto.
Qed.

(** The login is answered with status 401: one call, exit code 1. *)
Lemma login_failure_sample_witness :
  snd (login requests_raise_for_status sample_cfg (sample_server 0 401) []
         (main_session requests_default_headers)) = Raise (HTTPError 401) /\
  snd (Posix.main requests_raise_for_status requests_default_headers sample_cfg
         (sample_server 0 401) sample_posix (fun _ => sample_posix)
         (Posix.CliPath [py "music"])) = Exit 1 /\
  http_calls (fst (Posix.main requests_raise_for_status requests_default_headers sample_cfg
                     (sample_server 0 401) sample_posix (fun _ => sample_posix)
                     (Posix.CliPath [py "music"]))) =
    [login_request sample_cfg (main_session requests_default_headers)].
Proof.
  split; [reflexivity|].
  destruct (@login_once_and_fatal requests_raise_for_status requests_default_headers
              sample_cfg (sample_server 0 401) sample_posix (fun _ => sample_posix)
              (Posix.CliPath [py "music"]))
    as [_ [_ H]].
  destruct (H [py "music"] _ eq_refl eq_refl eq_refl ltac:(discriminate)) as [_ [_ F]].
  exact (F (HTTPError 401) eq_refl).
Defined.

(** X15. Every call of [session.request] a run makes names the method
    [POST], a timeout of 30 seconds and the login or the playlist-save URL,
    and is made on a session whose headers [Accept] and [Content-Type] are
    [application/json]. *)
Theorem every_call_is_a_json_post raises_for_status default_headers cfg server
    (fs : Posix.FS) (fs_upload : nat -> Posix.FS) (args : Posix.cli) (r : Request) :
  In r (http_calls (fst (Posix.main raises_for_status default_headers cfg server fs fs_upload
                           args))) ->
  req_method r = py "POST" /\
  req_timeout r = 30%Z /\
  In (py "Accept", py "application/json") (req_headers r) /\
  In (py "Content-Type", py "application/json") (req_headers r) /\
  (req_url r = request_url cfg (py "/api/v1/auth/login") \/
   req_url r = request_url cfg (py "/api/v1/playlist/save")).
Proof.
  intro Hr.
  destruct (main_session_json_headers default_headers) as [A C].
  assert (L : req_method (login_request cfg (main_session default_headers)) = py "POST" /\
              req_timeout (login_request cfg (main_session default_headers)) = 30%Z /\
              In (py "Accept", py "application/json")
                 (req_headers (login_request cfg (main_session default_headers))) /\
              In (py "Content-Type", py "application/json")
                 (req_headers (login_request cfg (main_session default_headers))) /\
              (req_url (login_request cfg (main_session default_headers)) =
                 request_url cfg (py "/api/v1/auth/login") \/
               req_url (login_request cfg (main_session default_headers)) =
                 request_url cfg (py "/api/v1/playlist/save"))).
  { repeat split; auto. }
  destruct (posix_main_cases raises_for_status default_headers cfg server fs fs_upload args)
    as [H | [t [fl [_ [_ [_ [_ [[e [_ [_ H]]] | [session [Ls [_ H]]]]]]]]]]];
    rewrite H in Hr.
  - contradiction.
  - destruct Hr as [<- | []]. exact L.
  - destruct Hr as [<- | Hr]; [exact L|].
    apply posix_uploads_due_from in Hr as [q [songs [_ ->]]].
    cbn [save_request prepare req_method req_timeout req_headers req_url].
    split; [reflexivity|]. split; [reflexivity|].
    destruct (login_ok_session _ _ _ _ _ Ls) as [-> | [t' ->]].
    + repeat split; auto.
    + unfold headers_update. cbn [headers fold_left fst snd].
      repeat split; auto; apply in_dict_set_other; auto.
Qed.

Lemma json_post_sample_witness :
  In (py "Accept", py "application/json")
     (req_headers (save_request sample_cfg sample_session (py "b") (spec_tracks sample_playlist))) /\
  req_timeout (save_request sample_cfg sample_session (py "b") (spec_tracks sample_playlist))
    = 30%Z.
Proof.
  destruct (@every_call_is_a_json_post requests_raise_for_status requests_default_headers
              sample_cfg (sample_server 9 500) sample_posix (fun _ => sample_posix)
              (Posix.CliPath [py "music"])
              (save_request sample_cfg sample_session (py "b") (spec_tracks sample_playlist)))
    as [_ [T [A _]]].
  - right. right. right. left. reflexivity.
  - split; [exact A | exact T].
Defined.

(** X16. What a playlist-save call returns or raises has no influence on
    what the script does next: two servers that answer the login call alike
    lead to the same calls, of [pathlib] and of [session.request], in the
    same order and to the same exit code, however differently they treat
    the uploads. *)
Theorem upload_replies_do_not_matter raises_for_status default_headers cfg
    (server1 server2 : Server) (fs : Posix.FS) (fs_upload : nat -> Posix.FS)
    (args : Posix.cli) :
  server1 [] (login_request cfg (main_session default_headers)) =
  server2 [] (login_request cfg (main_session default_headers)) ->
  Posix.main raises_for_status default_headers cfg server1 fs fs_upload args =
  Posix.main raises_for_status default_headers cfg server2 fs fs_upload args.
Proof.
  intro S.
  destruct (validate_cases cfg) as [V | [m [_ V]]].
  2:{ rewrite !posix_main_config_error by (rewrite V; discriminate). reflexivity. }
  destruct args as [target|code|e0].
  2:{ now rewrite !posix_main_cli_exit. }
  2:{ now rewrite !posix_main_cli_raise. }
  destruct (snd (Posix.gather_m3u_files fs target)) as [files|e] eqn:G.
  2:{ rewrite (@posix_main_discovery_error raises_for_status default_headers cfg server1 fs
                 fs_upload target e V G).
      now rewrite (@posix_main_discovery_error raises_for_status default_headers cfg server2 fs
                     fs_upload target e V G). }
  destruct files as [|p rest].
  { rewrite (@posix_main_no_files raises_for_status default_headers cfg server1 fs
               fs_upload target V G).
    now rewrite (@posix_main_no_files raises_for_status default_headers cfg server2 fs
                   fs_upload target V G). }
  pose proof (@login_agrees raises_for_status cfg server1 server2 []
                (main_session default_headers) S) as LA.
  destruct (snd (login raises_for_status cfg server2 [] (main_session default_headers)))
    as [session|e] eqn:L2.
  - assert (L1 : snd (login raises_for_status cfg server1 [] (main_session default_headers))
                 = Ok session) by now rewrite LA.
    rewrite (@posix_main_uploads raises_for_status default_headers cfg server1 fs fs_upload
               target (p :: rest) session V G ltac:(discriminate) L1).
    rewrite (@posix_main_uploads raises_for_status default_headers cfg server2 fs fs_upload
               target (p :: rest) session V G ltac:(discriminate) L2).
    do 3 f_equal. apply posix_upload_loop_server.
  - assert (L1 : snd (login raises_for_status cfg server1 [] (main_session default_headers))
                 = Raise e) by now rewrite LA.
    rewrite (@posix_main_login_error raises_for_status default_headers cfg server1 fs fs_upload
               target (p :: rest) e V G ltac:(discriminate) L1).
    now rewrite (@posix_main_login_error raises_for_status default_headers cfg server2 fs
                   fs_upload target (p :: rest) e V G ltac:(discriminate) L2).
Qed.

(** One server rejects the first upload with 500, the other the second
    with 404. *)
Lemma upload_replies_sample_witness :
  Posix.main requests_raise_for_status requests_default_headers sample_cfg (sample_server 1 500)
    sample_posix (fun _ => sample_posix) (Posix.CliPath [py "music"]) =
  Posix.main requests_raise_for_status requests_default_headers sample_cfg (sample_server 2 404)
    sample_posix (fun _ => sample_posix) (Posix.CliPath [py "music"]).
Proof.
  exact (@upload_replies_do_not_matter requests_raise_for_status requests_default_headers
           sample_cfg (sample_server 1 500) (sample_server 2 404)
           sample_posix (fun _ => sample_posix) (Posix.CliPath [py "music"]) eq_refl).
Defined.

(** X19. The script hands the credentials to the login call only: a call of
    [session.request] whose JSON body has a [username] or [password] member
    is the login call, and the member is the configured user name or
    password. *)
Theorem credentials_only_in_login_call raises_for_status default_headers cfg server
    (fs : Posix.FS) (fs_upload : nat -> Posix.FS) (args : Posix.cli)
    (r : Request) (k : str) (v : jvalue) :
  In r (http_calls (fst (Posix.main raises_for_status default_headers cfg server fs fs_upload
                           args))) ->
  In (k, v) (req_json r) ->
  k = py "username" \/ k = py "password" ->
  r = login_request cfg (main_session default_headers) /\
  (k = py "username" -> v = JString (USERNAME cfg)) /\
  (k = py "password" -> v = JString (PASSWORD cfg)).
Proof.
  intros Hr Hk K.
  assert (L : forall r', r' = login_request cfg (main_session default_headers) ->
                In (k, v) (req_json r') ->
                r' = login_request cfg (main_session default_headers) /\
                (k = py "username" -> v = JString (USERNAME cfg)) /\
                (k = py "password" -> v = JString (PASSWORD cfg))).
  { intros r' -> H. split; [reflexivity|].
    cbn [login_request prepare req_json] in H.
    destruct H as [H | [H | []]]; inversion H; subst; split; intro E;
      try reflexivity; discriminate. }
  destruct (posix_main_cases raises_for_status default_headers cfg server fs fs_upload args)
    as [H | [t [fl [_ [_ [_ [_ [[e [_ [_ H]]] | [session [_ [_ H]]]]]]]]]]];
    rewrite H in Hr.
  - contradiction.
  - destruct Hr as [<- | []]. now apply L.
  - destruct Hr as [<- | Hr]; [now apply L|].
    apply posix_uploads_due_from in Hr as [q [songs [_ ->]]].
    cbn [save_request prepare req_json] in Hk.
    destruct Hk as [Hk | [Hk | []]]; inversion Hk; subst;
      destruct K as [K | K]; discriminate.
Qed.

Lemma credentials_sample_witness :
  In (py "password", JString (py "admin"))
     (req_json (login_request sample_cfg (main_session requests_default_headers))) /\
  PASSWORD sample_cfg = py "admin".
Proof.
  assert (I : In (py "password", JString (py "admin"))
                 (req_json (login_request sample_cfg (main_session requests_default_headers))))
    by (right; left; reflexivity).
  split; [exact I|].
  destruct (@credentials_only_in_login_call requests_raise_for_status requests_default_headers
              sample_cfg (sample_server 9 500) sample_posix (fun _ => sample_posix)
              (Posix.CliPath [py "music"])
              (login_request sample_cfg (main_session requests_default_headers))
              (py "password") (JString (py "admin"))
              (or_introl eq_refl) I (or_intror eq_refl)) as [_ [_ P]].
  specialize (P eq_refl). now inversion P.
Defined.

(** X2. A run that has a path from its command line returns 0 exactly when
    the configuration is valid, discovery returned at least one file and
    the login succeeded; what happens to the single files has no part in
    it.  Every other such run returns 1, or ends with the [OSError] of a
    [stat] that was refused during discovery.  When the configuration is
    valid and [argparse] exits by itself, its status is the status of the
    run. *)
Theorem exit_code_reflects_fatal_conditions raises_for_status default_headers cfg server
    (fs : Posix.FS) (fs_upload : nat -> Posix.FS) (target : Path) :
  (snd (Posix.main raises_for_status default_headers cfg server fs fs_upload
          (Posix.CliPath target)) = Exit 0 <->
   validate cfg = Ok tt /\
   (exists files, snd (Posix.gather_m3u_files fs target) = Ok files /\ files <> []) /\
   (exists session,
      snd (login raises_for_status cfg server [] (main_session default_headers)) = Ok session)) /\
  (snd (Posix.main raises_for_status default_headers cfg server fs fs_upload
          (Posix.CliPath target)) = Exit 0 \/
   snd (Posix.main raises_for_status default_headers cfg server fs fs_upload
          (Posix.CliPath target)) = Exit 1 \/
   exists p, Posix.stat_error fs p = true /\
             snd (Posix.main raises_for_status default_headers cfg server fs fs_upload
                    (Posix.CliPath target)) = Uncaught (OSError p)) /\
  (forall code,
     snd (Posix.main raises_for_status default_headers cfg server fs fs_upload
            (Posix.CliExit code)) = match validate cfg with Ok _ => Exit code | Raise _ => Exit 1 end).
Proof.
  assert (CE : forall code,
            snd (Posix.main raises_for_status default_headers cfg server fs fs_upload
                   (Posix.CliExit code)) = match validate cfg with Ok _ => Exit code | Raise _ => Exit 1 end).
  { intro code. destruct (validate_cases cfg) as [V | [m [_ V]]].
    - rewrite posix_main_cli_exit by exact V. now rewrite V.
    - rewrite posix_main_config_error by (rewrite V; discriminate). now rewrite V. }
  destruct (validate_cases cfg) as [V | [m [_ V]]].
  2:{ rewrite posix_main_config_error by (rewrite V; discriminate). cbn [snd].
      split; [|split; [auto | exact CE]].
      split; [discriminate | intros [V' _]; rewrite V in V'; discriminate]. }
  destruct (snd (Posix.gather_m3u_files fs target)) as [files|e] eqn:G.
  2:{ rewrite (@posix_main_discovery_error raises_for_status default_headers cfg server fs
                 fs_upload target e V G). cbn [snd].
      split; [|split; [|exact CE]].
      - split; [|intros [_ [[f [F _]] _]]; discriminate].
        destruct e; discriminate.
      - destruct (posix_gather_raises _ _ G) as [-> | [-> | [p [-> S]]]]; eauto. }
  destruct files as [|p rest].
  { rewrite (@posix_main_no_files raises_for_status default_headers cfg server fs
               fs_upload target V G). cbn [snd].
    split; [|split; [auto | exact CE]].
    split; [discriminate|]. intros [_ [[f [F N]] _]]. inversion F; subst. contradiction. }
  destruct (snd (login raises_for_status cfg server [] (main_session default_headers)))
    as [session|e] eqn:L.
  - rewrite (@posix_main_uploads raises_for_status default_headers cfg server fs fs_upload
               target (p :: rest) session V G ltac:(discriminate) L). cbn [snd].
    split; [|split; [auto | exact CE]].
    split; [|reflexivity]. intros _. split; [exact V|]. split; eauto.
    exists (p :: rest). split; [reflexivity | discriminate].
  - rewrite (@posix_main_login_error raises_for_status default_headers cfg server fs fs_upload
               target (p :: rest) e V G ltac:(discriminate) L). cbn [snd].
    split; [|split; [auto | exact CE]].
    split; [discriminate | intros [_ [_ [s S]]]; discriminate].
Qed.

Lemma uploads_due_stable cfg (fs : Posix.FS) session files : forall i,
  (forall p, In p files ->
     Posix.stat_error fs p = false /\ Posix.open_error fs p = false /\
     exists t, Posix.locate fs p = Some (p, Posix.File t)) ->
  Posix.uploads_due cfg (fun _ => fs) session i files =
  map (fun p => save_request cfg session (stem p) (tracks_of fs p)) files.
Proof.
  induction files as [|q rest IH]; intros i H; [reflexivity|].
  cbn [Posix.uploads_due map].
  destruct (H q (or_introl eq_refl)) as [S [O [t L]]].
  rewrite (@posix_parse_file fs q q t L S O).
  unfold tracks_of at 1. rewrite L. f_equal.
  apply IH. intros p Hp. apply H. now right.
Qed.

(** X18. When the files stay as discovery found them and neither [stat] nor
    [open] refuses one of them, the run makes the login call and then one
    playlist-save call for each discovered file, in the order of discovery,
    with the stem of the resolved path as title and the tracks of that file
    as songs. *)
Theorem stable_files_are_all_submitted raises_for_status default_headers cfg server
    (fs : Posix.FS) (target : Path) (files : list Path) (session : Session) :
  validate cfg = Ok tt ->
  snd (Posix.gather_m3u_files fs target) = Ok files -> files <> [] ->
  snd (login raises_for_status cfg server [] (main_session default_headers)) = Ok session ->
  (forall p, In p files -> Posix.stat_error fs p = false /\ Posix.open_error fs p = false) ->
  http_calls (fst (Posix.main raises_for_status default_headers cfg server fs (fun _ => fs)
                     (Posix.CliPath target))) =
    login_request cfg (main_session default_headers)
    :: map (fun p => save_request cfg session (stem p) (tracks_of fs p)) files.
Proof.
  intros V G N L R.
  rewrite (@posix_main_uploads raises_for_status default_headers cfg server fs (fun _ => fs)
             target files session V G N L).
  cbn [fst]. rewrite !http_calls_app, (http_calls_fs _ (posix_gather_only_fs fs target)).
  cbn [http_calls app]. rewrite posix_upload_loop_http. f_equal.
  apply uploads_due_stable. intros p Hp. destruct (R p Hp) as [S O].
  split; [exact S|]. split; [exact O|].
  eapply posix_gather_results_real; eauto.
Qed.

(** The sample tree with its links: the file [elsewhere/t.txt] is
    submitted twice, under the title [t], and [b.m3u] once. *)
Lemma stable_files_sample_witness :
  http_calls (fst (Posix.main requests_raise_for_status requests_default_headers sample_cfg
                     (sample_server 9 500) sample_posix (fun _ => sample_posix)
                     (Posix.CliPath [py "music"]))) =
    [login_request sample_cfg (main_session requests_default_headers);
     save_request sample_cfg sample_session (py "t") [py "x.ogg"];
     save_request sample_cfg sample_session (py "t") [py "x.ogg"];
     save_request sample_cfg sample_session (py "b") [py "rock/a.mp3"; py "jazz/b c.flac"]].
Proof.
  rewrite (@stable_files_are_all_submitted requests_raise_for_status requests_default_headers
             sample_cfg (sample_server 9 500) sample_posix [py "music"]
             [[py "elsewhere"; py "t.txt"]; [py "elsewhere"; py "t.txt"]; [py "music"; py "b.m3u"]]
             sample_session eq_refl eq_refl ltac:(discriminate) eq_refl).
  - reflexivity.
  - intros p [<- | [<- | [<- | []]]]; split; reflexivity.
Defined.
